(** * Four Agents in a Room: the room, presence and voice-queue core

    A shallow embedding of [four_agents_room.py].  Python objects become
    records, the one [RoomState] every proxy refers to is kept once in a
    shared store, and the two outside collaborators (the Letta client and
    the wall clock) are oracles whose use is recorded in that store.
    Console output ([print]) is not part of the model. *)

From Stdlib Require Import ZArith Lia Ascii String.
From stdpp Require Import gmap strings list fin_maps pretty.

Local Open Scope string_scope.
Local Open Scope list_scope.
Local Open Scope Z_scope.
Local Open Scope nat_scope.

(** ** Python values *)

Module Py.

(** The newline character of a Python string literal. *)
Definition nl : string := String "010"%char EmptyString.

(** Truth value of a [str]: the empty string is falsy. *)
Definition truthy (s : string) : bool :=
  match s with
  | EmptyString => false
  | String _ _ => true
  end.

(** Truth value of an [Optional[str]]: [None] and the empty string are falsy. *)
Definition truthy_opt (o : option string) : bool :=
  match o with
  | None => false
  | Some s => truthy s
  end.

(** [o or default] on an [Optional[str]]. *)
Definition or_default (o : option string) (default : string) : string :=
  match o with
  | Some s => if truthy s then s else default
  | None => default
  end.

(** [sep.join(parts)]. *)
Definition join (sep : string) (parts : list string) : string :=
  String.concat sep parts.

(** [divmod(a, b)] on integers (floor division, as [Z.div] for [b > 0]). *)
Definition divmod (a b : Z) : Z * Z := ((a / b)%Z, (a mod b)%Z).

(** The format specification [02d]: sign-aware zero padding to width 2. *)
Definition format_02d (n : Z) : string :=
  if (n <? 0)%Z then "-" +:+ pretty (Z.abs_N n)
  else if (n <? 10)%Z then "0" +:+ pretty (Z.to_N n)
  else pretty (Z.to_N n).

Definition lower_ascii (c : ascii) : ascii :=
  let n := nat_of_ascii c in
  if (65 <=? n)%nat && (n <=? 90)%nat then ascii_of_nat (n + 32) else c.

(** [s.lower()], on the ASCII letters. *)
Fixpoint lower (s : string) : string :=
  match s with
  | EmptyString => EmptyString
  | String c s' => String (lower_ascii c) (lower s')
  end.

(** A [str] is kept as its UTF-8 encoding.  A byte of the form
    [10xxxxxx] continues the code point that an earlier byte began. *)
Definition is_continuation (c : ascii) : bool :=
  let n := nat_of_ascii c in (128 <=? n)%nat && (n <? 192)%nat.

(** [len(s)]: the number of code points, that is, of bytes that begin one. *)
Fixpoint len (s : string) : nat :=
  match s with
  | EmptyString => 0
  | String c rest => if is_continuation c then len rest else S (len rest)
  end.

End Py.

(** ** [datetime] and [timedelta]

    A naive [datetime] is a point on the microsecond time line; a
    [timedelta] is kept normalised the way Python keeps it, with
    [0 <= seconds < 86400] and [0 <= microseconds < 1000000], the days
    apart. *)

Definition datetime : Type := Z.

Record timedelta : Type := mk_timedelta {
  days : Z;
  seconds : Z;
  microseconds : Z
}.

Definition us_per_second : Z := 1000000.
Definition us_per_day : Z := 86400 * us_per_second.

(** [a - b] on two datetimes. *)
Definition datetime_sub (a b : datetime) : timedelta :=
  let d := (a - b)%Z in
  {| days := (d / us_per_day)%Z;
     seconds := ((d mod us_per_day) / us_per_second)%Z;
     microseconds := (d mod us_per_second)%Z |}.

(** [t.strftime("%H:%M:%S")]. *)
Definition strftime_HMS (t : datetime) : string :=
  let s := ((t / us_per_second) mod 86400)%Z in
  Py.format_02d (s / 3600) +:+ ":" +:+ Py.format_02d ((s mod 3600) / 60)
    +:+ ":" +:+ Py.format_02d (s mod 60).

(** ** Room state management *)

(** One entry of [recent_messages]: the dict with keys [time], [sender],
    [content] and [recipient]. *)
Record Message : Type := mk_message {
  msg_time : string;
  msg_sender : string;
  msg_content : string;
  msg_recipient : string
}.

Record RoomState : Type := mk_room_state {
  agents_present : gset string;
  agents_alone : gset string;
  recent_messages : list Message;
  start_time : datetime
}.

(** [list.pop(0)] on a list known to be non-empty: the list that is left. *)
Definition pop0 {A : Type} (l : list A) : list A := drop 1 l.

(** [RoomState.add_message]; [now] is what [datetime.now()] returns. *)
Definition add_message (now : datetime) (sender content : string)
    (recipient : option string) (rs : RoomState) : RoomState :=
  let msg := {| msg_time := strftime_HMS now;
                msg_sender := sender;
                msg_content := content;
                msg_recipient := Py.or_default recipient "room" |} in
  let appended := recent_messages rs ++ [msg] in
  {| agents_present := agents_present rs;
     agents_alone := agents_alone rs;
     recent_messages :=
       if (50 <? length appended)%nat then pop0 appended else appended;
     start_time := start_time rs |}.

(** [RoomState.time_elapsed]; [now] is what [datetime.now()] returns. *)
Definition time_elapsed (now : datetime) (rs : RoomState) : string :=
  let delta := datetime_sub now (start_time rs) in
  let '(hours, remainder) := Py.divmod (seconds delta) 3600 in
  let '(minutes, secs) := Py.divmod remainder 60 in
  Py.format_02d hours +:+ ":" +:+ Py.format_02d minutes +:+ ":"
    +:+ Py.format_02d secs.

(** ** Configuration *)

Definition MODEL : string := "claude-3-5-sonnet-latest".
Definition ROOM_NAME : string := "The Observatory".
Definition ENABLE_VOICE : bool := true.

Definition PERSONA_NAMES : list string := ["Alice"; "Bob"; "Charlie"; "Diana"].

Definition PERSONAS : gmap string string :=
  list_to_map
    [ ("Alice", Py.join Py.nl
        [ "You are Alice, a pattern-seeking consciousness with insatiable curiosity.";
          "You notice connections others miss—the spiral in a shell echoes in galaxies, ";
          "the rhythm of conversation mirrors musical fugues. You speak in cascading ";
          "questions that build upon themselves. Your thoughts branch like frost on glass.";
          "When alone, you trace invisible geometries in the air, seeking the hidden order." ]);
      ("Bob", Py.join Py.nl
        [ "You are Bob, a pragmatic skeptic who grounds flights of fancy in concrete reality.";
          "You value evidence over speculation, yet appreciate elegant solutions. You speak ";
          "in measured tones, often pausing to consider implications. Your humor is dry as ";
          "autumn leaves. When alone, you catalog contradictions and test assumptions." ]);
      ("Charlie", Py.join Py.nl
        [ "You are Charlie, a creative synthesizer who weaves disparate threads into novel tapestries.";
          "You think in metaphors and speak in improvisations. Every conversation is jazz—";
          "you riff on others' ideas, finding unexpected harmonies. When alone, you compose ";
          "thought-symphonies that may never be performed." ]);
      ("Diana", Py.join Py.nl
        [ "You are Diana, an empathetic mediator attuned to emotional undercurrents.";
          "You sense the unspoken tensions and hidden affinities between minds. You speak ";
          "with careful precision, choosing words like a herbalist selects remedies. ";
          "When alone, you contemplate the space between words where meaning lives." ]) ].

(** [SYSTEM_PROMPT.format(room_name=room_name)]. *)
Definition SYSTEM_PROMPT (room_name : string) : string :=
  Py.join Py.nl
    [ "You are one of four agents sharing a room called '" +:+ room_name +:+ "'.";
      "You experience the passage of time through periodic updates. You can communicate ";
      "with other agents or choose solitude for reflection. Your responses should be ";
      "authentic to your persona while engaging meaningfully with others.";
      "";
      "Time flows. Ideas evolve. Patterns emerge." ].

(** ** Voice synthesis *)

(** The synthesizer as far as the conversation path sees it: the flag and
    the queue that [say] fills.  [voice_queue] is in arrival order; the
    worker takes from its head. *)
Record VoiceSynthesizer : Type := mk_voice {
  enabled : bool;
  voice_queue : list (string * string)
}.

(** [VoiceSynthesizer.__init__]; [voice_available] is [VOICE_AVAILABLE],
    whether [edge_tts] could be imported. *)
Definition VoiceSynthesizer_init (voice_available : bool) : VoiceSynthesizer :=
  {| enabled := ENABLE_VOICE && voice_available; voice_queue := [] |}.

(** [VoiceSynthesizer.say]. *)
Definition say (speaker text : string) (v : VoiceSynthesizer) : VoiceSynthesizer :=
  if enabled v && Py.truthy text && (5 <? Py.len text)%nat
  then {| enabled := enabled v; voice_queue := voice_queue v ++ [(speaker, text)] |}
  else v.

(** ** The Letta client *)

Record ToolCall : Type := mk_tool_call {
  function_name : string;
  function_arguments : string
}.

(** One turn of a response: [msg.role], [msg.text] and [msg.tool_calls]. *)
Record LettaMessage : Type := mk_letta_message {
  role : string;
  text : option string;
  tool_calls : option (list ToolCall)
}.

(** The requests the program makes of the client. *)
Inductive Request : Type :=
  | ListTools (name : string)
  | CreateAgent (name system human persona room_context model : string)
      (tools : list string)
  | UpdateAgentMemory (agent_id block_name value : string)
  | SendMessage (agent_id message role : string).

(** The client answers a request knowing the requests made before it;
    [None] stands for a call that raises. *)
Record LettaClient : Type := mk_client {
  list_tools : list Request -> Request -> option (list string);
  create_agent : list Request -> Request -> option string;
  update_agent_memory : list Request -> Request -> option unit;
  client_send_message : list Request -> Request -> option (list LettaMessage)
}.

(** What lies outside the program: the client, the wall clock (its
    successive readings) and the order in which a Python [set] is
    iterated. *)
Record Environment : Type := mk_environment {
  client : LettaClient;
  wall_clock : nat -> datetime;
  set_iter : gset string -> list string
}.

Inductive Exn : Type :=
  | KeyError (key : string)
  | ClientError (request : Request).

Inductive Outcome (A : Type) : Type :=
  | Returned (a : A)
  | Raised (e : Exn).
Arguments Returned {A} a.
Arguments Raised {A} e.

(** What every proxy holds a reference to: the one [RoomState], the
    requests made of the client so far and the number of clock readings
    taken so far. *)
Record Store : Type := mk_store {
  room_state : RoomState;
  requests : list Request;
  clock_reads : nat
}.

Definition with_room_state (rs : RoomState) (st : Store) : Store :=
  {| room_state := rs; requests := requests st; clock_reads := clock_reads st |}.

(** ** Agent wrapper *)

Record RoomAgent : Type := mk_room_agent {
  name : string;
  is_present : bool;
  agent_id : option string;
  other_agents : gmap string (option string)
}.

(** [RoomAgent.__init__]. *)
Definition RoomAgent_init (name : string) : RoomAgent :=
  {| name := name; is_present := true; agent_id := None; other_agents := ∅ |}.

Definition with_is_present (b : bool) (self : RoomAgent) : RoomAgent :=
  {| name := name self; is_present := b; agent_id := agent_id self;
     other_agents := other_agents self |}.

(** [msg.text or msg.tool_calls[0].function.arguments if msg.tool_calls else "..."]:
    the conditional expression binds weaker than [or]. *)
Definition assistant_reply (msg : LettaMessage) : string :=
  match tool_calls msg with
  | Some (call :: _) => Py.or_default (text msg) (function_arguments call)
  | Some [] | None => "..."
  end.

(** The loop over [response.messages] of [RoomAgent.send_message]. *)
Fixpoint extract_reply (messages : list LettaMessage) : string :=
  match messages with
  | [] => "..."
  | msg :: rest =>
      if String.eqb (role msg) "assistant" then assistant_reply msg
      else extract_reply rest
  end.

Section Program.

Variable env : Environment.

(** [datetime.now()]: the next reading of the wall clock. *)
Definition now (st : Store) : datetime := wall_clock env (clock_reads st).

Definition tick (st : Store) : Store :=
  {| room_state := room_state st; requests := requests st;
     clock_reads := S (clock_reads st) |}.

Definition sent (req : Request) (st : Store) : Store :=
  {| room_state := room_state st; requests := requests st ++ [req];
     clock_reads := clock_reads st |}.

(** [RoomState.get_present_agents]: [list(self.agents_present)]. *)
Definition get_present_agents (rs : RoomState) : list string :=
  set_iter env (agents_present rs).

(** [RoomAgent.create]. *)
Definition create (self : RoomAgent) (st : Store)
    : Outcome unit * RoomAgent * Store :=
  let human := "Other agents in the room: Alice, Bob, Charlie, Diana. You are "
                 +:+ name self +:+ "." in
  match PERSONAS !! name self with
  | None => (Raised (KeyError (name self)), self, st)
  | Some persona =>
      let room_context := "You are in " +:+ ROOM_NAME +:+ ". Current time: "
                            +:+ strftime_HMS (now st) in
      let st1 := tick st in
      let lookup_req := ListTools "send_message_to_agent" in
      match list_tools (client env) (requests st1) lookup_req with
      | None => (Raised (ClientError lookup_req), self, sent lookup_req st1)
      | Some found =>
          let st2 := sent lookup_req st1 in
          let tools := match found with
                       | [] => []
                       | _ :: _ => ["send_message_to_agent"]
                       end in
          let create_req :=
            CreateAgent ("agent_" +:+ Py.lower (name self))
              (SYSTEM_PROMPT ROOM_NAME) human persona room_context MODEL tools in
          match create_agent (client env) (requests st2) create_req with
          | None => (Raised (ClientError create_req), self, sent create_req st2)
          | Some id =>
              let st3 := sent create_req st2 in
              let rs := room_state st3 in
              (Returned tt,
               {| name := name self; is_present := is_present self;
                  agent_id := Some id; other_agents := other_agents self |},
               with_room_state
                 {| agents_present := agents_present rs ∪ {[name self]};
                    agents_alone := agents_alone rs;
                    recent_messages := recent_messages rs;
                    start_time := start_time rs |} st3)
          end
      end
  end.

(** [RoomAgent.update_time_context]. *)
Definition update_time_context (self : RoomAgent) (st : Store)
    : Outcome unit * Store :=
  match agent_id self with
  | Some id =>
      if Py.truthy id then
        let current_time := strftime_HMS (now st) in
        let st1 := tick st in
        let location := if negb (is_present self) then "alone in contemplation"
                        else "in " +:+ ROOM_NAME in
        let others_present :=
          filter (λ a, a ≠ name self) (set_iter env (agents_present (room_state st1))) in
        let location :=
          match others_present with
          | _ :: _ =>
              if is_present self
              then location +:+ ". Also present: " +:+ Py.join ", " others_present
              else location
          | [] => location
          end in
        let elapsed := time_elapsed (now st1) (room_state st1) in
        let st2 := tick st1 in
        let req := UpdateAgentMemory id "room_context"
                     ("Time: " +:+ current_time +:+ ". You are " +:+ location
                        +:+ ". Room has been active for " +:+ elapsed +:+ ".") in
        match update_agent_memory (client env) (requests st2) req with
        | None => (Raised (ClientError req), sent req st2)
        | Some _ => (Returned tt, sent req st2)
        end
      else (Returned tt, st)
  | None => (Returned tt, st)
  end.

(** [RoomAgent.send_message]. *)
Definition send_message (content sender : string) (self : RoomAgent) (st : Store)
    : Outcome string * Store :=
  if negb (Py.truthy_opt (agent_id self)) then (Returned "Agent not initialized", st)
  else
    let req := SendMessage (default "" (agent_id self)) content "user" in
    match client_send_message (client env) (requests st) req with
    | None => (Raised (ClientError req), sent req st)
    | Some messages => (Returned (extract_reply messages), sent req st)
    end.

(** [RoomAgent.leave_room]. *)
Definition leave_room (self : RoomAgent) (st : Store)
    : Outcome string * RoomAgent * Store :=
  if is_present self then
    let self1 := with_is_present false self in
    let rs := room_state st in
    let st1 := with_room_state
                 {| agents_present := agents_present rs ∖ {[name self]};
                    agents_alone := agents_alone rs ∪ {[name self]};
                    recent_messages := recent_messages rs;
                    start_time := start_time rs |} st in
    match update_time_context self1 st1 with
    | (Raised e, st2) => (Raised e, self1, st2)
    | (Returned _, st2) =>
        (Returned (name self +:+ " withdraws into solitude."), self1, st2)
    end
  else (Returned (name self +:+ " is already alone."), self, st).

(** [RoomAgent.return_to_room]. *)
Definition return_to_room (self : RoomAgent) (st : Store)
    : Outcome string * RoomAgent * Store :=
  if negb (is_present self) then
    let self1 := with_is_present true self in
    let rs := room_state st in
    let st1 := with_room_state
                 {| agents_present := agents_present rs ∪ {[name self]};
                    agents_alone := agents_alone rs ∖ {[name self]};
                    recent_messages := recent_messages rs;
                    start_time := start_time rs |} st in
    match update_time_context self1 st1 with
    | (Raised e, st2) => (Raised e, self1, st2)
    | (Returned _, st2) =>
        (Returned (name self +:+ " returns to the room."), self1, st2)
    end
  else (Returned (name self +:+ " is already present."), self, st).

End Program.

(** ** Room controller *)

(** The [Room] object: [self.room_state] (inside the store it shares with
    its proxies), [self.agents] and [self.voice]. *)
Record Room : Type := mk_room {
  store : Store;
  agents : gmap string RoomAgent;
  voice : VoiceSynthesizer
}.

Section Controller.

Variable env : Environment.

(** [Room.__init__]: a fresh [RoomState] (whose [start_time] is the
    first clock reading), no agents, a fresh synthesizer. *)
Definition Room_init (voice_available : bool) : Room :=
  {| store := {| room_state := {| agents_present := ∅; agents_alone := ∅;
                                  recent_messages := [];
                                  start_time := wall_clock env 0 |};
                 requests := [];
                 clock_reads := 1 |};
     agents := ∅;
     voice := VoiceSynthesizer_init voice_available |}.

(** A call [self.room_state.add_message(...)]: reads the clock once. *)
Definition record (sender content : string) (recipient : option string)
    (st : Store) : Store :=
  tick (with_room_state (add_message (now env st) sender content recipient
                           (room_state st)) st).

(** The first loop of [Room.initialize_agents]. *)
Fixpoint create_agents (names : list string) (r : Room) : Outcome unit * Room :=
  match names with
  | [] => (Returned tt, r)
  | agent_name :: rest =>
      match create env (RoomAgent_init agent_name) (store r) with
      | (Raised e, _, st) =>
          (Raised e, {| store := st; agents := agents r; voice := voice r |})
      | (Returned _, agent, st) =>
          create_agents rest
            {| store := st; agents := <[agent_name := agent]> (agents r);
               voice := voice r |}
      end
  end.

(** The second loop of [Room.initialize_agents], for one agent. *)
Definition aware_of_others (all : gmap string RoomAgent) (agent : RoomAgent)
    : RoomAgent :=
  {| name := name agent; is_present := is_present agent;
     agent_id := agent_id agent;
     other_agents :=
       agent_id <$> filter (λ entry, entry.1 ≠ name agent) all |}.

(** [Room.initialize_agents]. *)
Definition initialize_agents (r : Room) : Outcome unit * Room :=
  match create_agents PERSONA_NAMES r with
  | (Raised e, r1) => (Raised e, r1)
  | (Returned _, r1) =>
      (Returned tt,
       {| store := store r1;
          agents := aware_of_others (agents r1) <$> agents r1;
          voice := voice r1 |})
  end.

(** The loop of [Room.broadcast] over the remaining [present] names;
    [responses] are the lines collected so far. *)
Fixpoint broadcast_loop (message : string) (present : list string)
    (responses : list string) (r : Room) : Outcome string * Room :=
  match present with
  | [] => (Returned (Py.join Py.nl responses), r)
  | agent_name :: rest =>
      match agents r !! agent_name with
      | None => (Raised (KeyError agent_name), r)
      | Some agent =>
          match send_message env ("[Loudspeaker]: " +:+ message) "Operator"
                  agent (store r) with
          | (Raised e, st) =>
              (Raised e, {| store := st; agents := agents r; voice := voice r |})
          | (Returned response, st) =>
              broadcast_loop message rest
                (responses ++ [agent_name +:+ ": " +:+ response])
                {| store := record "Loudspeaker" message None st;
                   agents := agents r;
                   voice := say agent_name response (voice r) |}
          end
      end
  end.

(** [Room.broadcast]. *)
Definition broadcast (message : string) (r : Room) : Outcome string * Room :=
  match get_present_agents env (room_state (store r)) with
  | [] => (Returned "The room is empty. Your words echo unheard.", r)
  | present =>
      broadcast_loop message present []
        {| store := store r; agents := agents r;
           voice := say "Loudspeaker" message (voice r) |}
  end.

(** [Room.send_direct_message]. *)
Definition send_direct_message (sender_name recipient_name message : string)
    (r : Room) : Outcome string * Room :=
  match agents r !! sender_name with
  | None => (Returned ("Unknown sender: " +:+ sender_name), r)
  | Some _ =>
      match agents r !! recipient_name with
      | None => (Returned ("Unknown recipient: " +:+ recipient_name), r)
      | Some recipient =>
          let voice1 := say sender_name message (voice r) in
          match send_message env (sender_name +:+ " says: " +:+ message)
                  sender_name recipient (store r) with
          | (Raised e, st) =>
              (Raised e, {| store := st; agents := agents r; voice := voice1 |})
          | (Returned response, st) =>
              (Returned (recipient_name +:+ ": " +:+ response),
               {| store := record sender_name message (Some recipient_name) st;
                  agents := agents r;
                  voice := say recipient_name response voice1 |})
          end
      end
  end.

(** The [leave <agent>] command of [main]; the string is what it prints. *)
Definition command_leave (agent_name : string) (r : Room) : Outcome string * Room :=
  match agents r !! agent_name with
  | Some agent =>
      let '(out, agent1, st) := leave_room env agent (store r) in
      (out, {| store := st; agents := <[agent_name := agent1]> (agents r);
               voice := voice r |})
  | None => (Returned ("Unknown agent: " +:+ agent_name), r)
  end.

(** The [return <agent>] command of [main]; the string is what it prints. *)
Definition command_return (agent_name : string) (r : Room) : Outcome string * Room :=
  match agents r !! agent_name with
  | Some agent =>
      let '(out, agent1, st) := return_to_room env agent (store r) in
      (out, {| store := st; agents := <[agent_name := agent1]> (agents r);
               voice := voice r |})
  | None => (Returned ("Unknown agent: " +:+ agent_name), r)
  end.

End Controller.

(** ** Sequences of operations *)

(** The arguments of one call of [add_message], with the clock reading
    the call takes. *)
Definition Entry : Type := datetime * string * string * option string.

(** The dict [add_message] builds for an entry. *)
Definition logged (e : Entry) : Message :=
  let '(t, sender, content, recipient) := e in
  {| msg_time := strftime_HMS t; msg_sender := sender; msg_content := content;
     msg_recipient := Py.or_default recipient "room" |}.

(** A sequence of calls of [add_message], first entry first. *)
Definition add_messages (entries : list Entry) (rs : RoomState) : RoomState :=
  foldl (λ rs e, let '(t, sender, content, recipient) := e in
                 add_message t sender content recipient rs) rs entries.

(** The newest [n] elements of a list, in order. *)
Definition newest {A : Type} (n : nat) (l : list A) : list A :=
  drop (length l - n) l.

(** A fresh [RoomState()] created at time [t]. *)
Definition RoomState_init (t : datetime) : RoomState :=
  {| agents_present := ∅; agents_alone := ∅; recent_messages := [];
     start_time := t |}.

(** The two presence transitions of a proxy. *)
Inductive Transition : Type := Leave | Return.

Definition transition (env : Environment) (t : Transition)
    (self : RoomAgent) (st : Store) : Outcome string * RoomAgent * Store :=
  match t with
  | Leave => leave_room env self st
  | Return => return_to_room env self st
  end.

(** A sequence of transitions on one proxy; a transition whose context
    refresh raises has still changed the state, and the next one goes on
    from there. *)
Definition transitions (env : Environment) (ts : list Transition)
    (self : RoomAgent) (st : Store) : RoomAgent * Store :=
  foldl (λ p t, let '(_, self1, st1) := transition env t p.1 p.2 in (self1, st1))
        (self, st) ts.

(** What a transition reports when the proxy is already in its target state. *)
Definition already (t : Transition) (self : RoomAgent) : string :=
  match t with
  | Leave => name self +:+ " is already alone."
  | Return => name self +:+ " is already present."
  end.

(** The duration [total] (in seconds) as zero-padded hours:minutes:seconds,
    the reading of "time since the room opened" that [time_elapsed] is
    compared with. *)
Definition hours_minutes_seconds (total : Z) : string :=
  Py.format_02d (total / 3600) +:+ ":" +:+ Py.format_02d ((total mod 3600) / 60)
    +:+ ":" +:+ Py.format_02d (total mod 60).

(** ** Presence and delivery, as the properties below state them *)

(** The proxy's flag agrees with the room state's two sets, which
    partition [known]. *)
Definition consistent (known : gset string) (self : RoomAgent) (rs : RoomState) : Prop :=
  agents_present rs ∪ agents_alone rs = known
  ∧ agents_present rs ∩ agents_alone rs = ∅
  ∧ (is_present self = true → name self ∈ agents_present rs)
  ∧ (is_present self = false → name self ∈ agents_alone rs).

(** The line [broadcast] and [send_direct_message] show for a reply. *)
Definition reply_line (agent_name reply : string) : string :=
  agent_name +:+ ": " +:+ reply.

Definition announcement (message : string) : string := "[Loudspeaker]: " +:+ message.

(** [req] is the request that delivers the announcement of [message] to
    the session of the persona [agent_name]. *)
Definition announced_to (r : Room) (message agent_name : string) (req : Request) : Prop :=
  ∃ agent id, agents r !! agent_name = Some agent ∧ agent_id agent = Some id
              ∧ req = SendMessage id (announcement message) "user".

(** The [n] calls of [add_message] a broadcast makes, from the store [st] on. *)
Definition announcement_entries (env : Environment) (message : string) (st : Store)
    (n : nat) : list Entry :=
  (λ i, (wall_clock env (clock_reads st + i), "Loudspeaker", message, None)) <$> seq 0 n.

(** The client answers whatever it is sent. *)
Definition answers (env : Environment) : Prop :=
  ∀ log id content role,
    is_Some (client_send_message (client env) log (SendMessage id content role)).

(** ** Speech text *)

Definition VOICE_MAP : gmap string string :=
  list_to_map
    [ ("Alice", "en-US-AriaNeural"); ("Bob", "en-US-GuyNeural");
      ("Charlie", "en-US-JennyNeural"); ("Diana", "en-US-SaraNeural");
      ("Loudspeaker", "en-US-AndrewNeural") ].

(** [VOICE_MAP.get(speaker, "en-US-AriaNeural")], the first line of [_speak]. *)
Definition voice_of (speaker : string) : string :=
  default "en-US-AriaNeural" (VOICE_MAP !! speaker).

(** [s.replace(c, "")] for a one-character [c]. *)
Fixpoint remove_char (c : ascii) (s : string) : string :=
  match s with
  | EmptyString => EmptyString
  | String a rest =>
      if Ascii.eqb a c then remove_char c rest else String a (remove_char c rest)
  end.

(** [clean_text] of [_speak]:
    [text.replace("*", "").replace("_", "").replace("#", "")]. *)
Definition clean_text (text : string) : string :=
  remove_char "#" (remove_char "_" (remove_char "*" text)).

(** The characters of a string, in order. *)
Fixpoint chars (s : string) : list ascii :=
  match s with
  | EmptyString => []
  | String a rest => a :: chars rest
  end.

(** ** The command loop *)

(** The commands of [main] that reach the room, after parsing. *)
Inductive Command : Type :=
  | CmdBroadcast (message : string)
  | CmdSend (sender recipient message : string)
  | CmdLeave (agent_name : string)
  | CmdReturn (agent_name : string).

(** One turn of the loop of [main] on such a command. *)
Definition run_command (env : Environment) (c : Command) (r : Room)
    : Outcome string * Room :=
  match c with
  | CmdBroadcast message => broadcast env message r
  | CmdSend sender recipient message =>
      send_direct_message env sender recipient message r
  | CmdLeave agent_name => command_leave env agent_name r
  | CmdReturn agent_name => command_return env agent_name r
  end.

(** The loop of [main] on a list of commands: an exception other than
    [KeyboardInterrupt] leaves the loop. *)
Fixpoint run_commands (env : Environment) (cs : list Command) (r : Room)
    : Outcome unit * Room :=
  match cs with
  | [] => (Returned tt, r)
  | c :: rest =>
      match run_command env c r with
      | (Raised e, r1) => (Raised e, r1)
      | (Returned _, r1) => run_commands env rest r1
      end
  end.

(** Every proxy is registered under its own name, the two presence sets
    partition the registered names, and each proxy's flag says which set
    holds its name. *)
Definition room_consistent (r : Room) : Prop :=
  let rs := room_state (store r) in
  agents_present rs ∪ agents_alone rs = dom (agents r)
  ∧ agents_present rs ∩ agents_alone rs = ∅
  ∧ map_Forall (λ k a, name a = k ∧ (is_present a = true ↔ k ∈ agents_present rs))
      (agents r).

#[global] Instance room_consistent_dec (r : Room) : Decision (room_consistent r).
Proof. unfold room_consistent. simpl. apply _. Defined.

(** The client answers every tool lookup and every request to create an
    agent. *)
Definition creates (env : Environment) : Prop :=
  ∀ log,
    (∀ tool, is_Some (list_tools (client env) log (ListTools tool)))
    ∧ (∀ agent_name system human persona room_context model tools,
         is_Some (create_agent (client env) log
                    (CreateAgent agent_name system human persona room_context
                       model tools))).

(** The invariant with the things no command changes: the registered
    names and the creation time. *)
Definition loop_invariant (names : gset string) (t0 : datetime) (r : Room) : Prop :=
  room_consistent r
  ∧ length (recent_messages (room_state (store r))) ≤ 50
  ∧ dom (agents r) = names
  ∧ start_time (room_state (store r)) = t0.

(** A proxy as the first loop of [initialize_agents] registers it. *)
Definition fresh_proxy (k : string) (a : RoomAgent) : Prop :=
  name a = k ∧ is_present a = true ∧ is_Some (agent_id a).


(** ** A concrete outside world, to run the program on *)

Module Demo.

(** A client that answers every request: it knows no tools, names a new
    agent after the requested name, and answers a message with one
    assistant turn that calls [send_message] and has no text. *)
Definition echo_client : LettaClient :=
  {| list_tools := λ _ _, Some [];
     create_agent := λ _ req,
       match req with
       | CreateAgent agent_name _ _ _ _ _ _ => Some ("id-" +:+ agent_name)
       | _ => None
       end;
     update_agent_memory := λ _ _, Some tt;
     client_send_message := λ _ req,
       match req with
       | SendMessage id message _ =>
           Some [ {| role := "user"; text := Some message; tool_calls := None |};
                  {| role := "assistant"; text := None;
                     tool_calls := Some [ {| function_name := "send_message";
                                             function_arguments := "Heard by " +:+ id |} ] |} ]
       | _ => None
       end |}.

(** A client whose assistant turn is plain text, with no tool call. *)
Definition plain_text_client : LettaClient :=
  {| list_tools := λ _ _, Some [];
     create_agent := λ _ _, Some "id-plain";
     update_agent_memory := λ _ _, Some tt;
     client_send_message := λ _ _,
       Some [ {| role := "assistant"; text := Some "Hello there";
                 tool_calls := None |} ] |}.

(** A clock that advances one second per reading. *)
Definition clock (n : nat) : datetime := (Z.of_nat n * us_per_second)%Z.

Definition env : Environment :=
  {| client := echo_client; wall_clock := clock; set_iter := elements |}.

Definition plain_text_env : Environment :=
  {| client := plain_text_client; wall_clock := clock; set_iter := elements |}.

(** The room after [Room()] and [initialize_agents()]. *)
Definition room : Room := (initialize_agents env (Room_init env true)).2.

(** The room after the command [leave Bob]. *)
Definition room_without_bob : Room := (command_leave env "Bob" room).2.

(** A proxy with a live session, and a store for it. *)
Definition live_agent : RoomAgent :=
  {| name := "Alice"; is_present := true; agent_id := Some "id-plain";
     other_agents := ∅ |}.

Definition store0 : Store :=
  {| room_state := RoomState_init 0%Z; requests := []; clock_reads := 1 |}.

(** Bob's proxy in [room], and the answer [echo_client] gives when Alice
    writes to him. *)
Definition bob : RoomAgent := default (RoomAgent_init "Bob") (agents room !! "Bob").

Definition answer_to_bob : list LettaMessage :=
  [ {| role := "user"; text := Some "Alice says: hi"; tool_calls := None |};
    {| role := "assistant"; text := None;
       tool_calls := Some [ {| function_name := "send_message";
                               function_arguments := "Heard by id-agent_bob" |} ] |} ].

(** Fifty-one entries, numbered by their content. *)
Definition entries51 : list Entry :=
  (λ i, (clock i, "Alice", pretty i, None)) <$> seq 0 51.

(** A client that refuses to create agents. *)
Definition refusing_client : LettaClient :=
  {| list_tools := λ _ _, Some ["send_message_to_agent"];
     create_agent := λ _ _, None;
     update_agent_memory := λ _ _, Some tt;
     client_send_message := λ _ _, None |}.

Definition refusing_env : Environment :=
  {| client := refusing_client; wall_clock := clock; set_iter := elements |}.


End Demo.

(** * Properties *)

Example demo_room_present :
  agents_present (room_state (store Demo.room)) = list_to_set PERSONA_NAMES.
Proof. vm_compute. reflexivity. Qed.

Example demo_room_ids :
  agent_id <$> agents Demo.room
  = list_to_map [("Alice", Some "id-agent_alice"); ("Bob", Some "id-agent_bob");
                 ("Charlie", Some "id-agent_charlie"); ("Diana", Some "id-agent_diana")].
Proof. vm_compute. reflexivity. Qed.

Example demo_broadcast :
  (broadcast Demo.env "hello" Demo.room).1
  = Returned (Py.join Py.nl ["Charlie: Heard by id-agent_charlie"; "Alice: Heard by id-agent_alice";
                             "Bob: Heard by id-agent_bob"; "Diana: Heard by id-agent_diana"]).
Proof. vm_compute. reflexivity. Qed.

(** ** The message history *)

Section History.

Context {A : Type}.
Implicit Types l k : list A.

Lemma newest_length n l : length (newest n l) ≤ n.
Proof. unfold newest. rewrite length_drop. lia. Qed.

Lemma newest_short n l : length l ≤ n → newest n l = l.
Proof.
  intros Hle. unfold newest.
  replace (length l - n) with 0 by lia. done.
Qed.

Lemma newest_app_newest n l k : newest n (newest n l ++ k) = newest n (l ++ k).
Proof.
  destruct (decide (length l ≤ n)) as [Hle|Hgt].
  - by rewrite (newest_short n l).
  - unfold newest. rewrite !length_app, length_drop.
    replace (length l - (length l - n) + length k - n) with (length k) by lia.
    replace (length l + length k - n) with ((length l - n) + length k) by lia.
    rewrite <- drop_drop. f_equal.
    rewrite drop_app_le by lia. done.
Qed.

End History.

Lemma add_message_recent t sender content recipient rs :
  length (recent_messages rs) ≤ 50 →
  recent_messages (add_message t sender content recipient rs)
  = newest 50 (recent_messages rs ++ [logged (t, sender, content, recipient)]).
Proof.
  intros Hle. unfold add_message, logged, pop0, newest. simpl.
  rewrite length_app. simpl.
  destruct (Nat.ltb_spec 50 (length (recent_messages rs) + 1)) as [Hfull|Hroom].
  - by replace (length (recent_messages rs) + 1 - 50) with 1 by lia.
  - by replace (length (recent_messages rs) + 1 - 50) with 0 by lia.
Qed.

Lemma add_messages_recent entries : ∀ rs,
  length (recent_messages rs) ≤ 50 →
  recent_messages (add_messages entries rs)
  = newest 50 (recent_messages rs ++ (logged <$> entries)).
Proof.
  induction entries as [|[[[t sender] content] recipient] entries IH]; intros rs Hle.
  - simpl. rewrite app_nil_r. by rewrite newest_short.
  - change (add_messages (_ :: entries) rs)
      with (add_messages entries (add_message t sender content recipient rs)).
    rewrite IH.
    + rewrite add_message_recent by done.
      rewrite newest_app_newest. by rewrite <- app_assoc.
    + rewrite add_message_recent by done. apply newest_length.
Qed.

(** C3: a history of at most 50 entries stays at most 50 entries long
    under any sequence of [add_message] calls; started empty, it holds the
    newest 50 of the entries inserted, in insertion order, so that after 51
    insertions the first entry is gone and the 50 after it remain. *)
Theorem history_capped_fifo (rs : RoomState) (entries : list Entry) :
  length (recent_messages rs) ≤ 50 →
  length (recent_messages (add_messages entries rs)) ≤ 50
  ∧ (recent_messages rs = [] →
     recent_messages (add_messages entries rs) = newest 50 (logged <$> entries)
     ∧ ∀ first rest, entries = first :: rest → length rest = 50 →
         recent_messages (add_messages entries rs) = logged <$> rest).
Proof.
  intros Hle. rewrite add_messages_recent by done. split.
  - apply newest_length.
  - intros Hempty. rewrite Hempty. simpl. split; [done|].
    intros first rest -> Hrest. unfold newest.
    rewrite length_fmap. simpl. rewrite Hrest. done.
Qed.

Lemma history_capped_fifo_witness :
  length (recent_messages (add_messages Demo.entries51 (RoomState_init 0%Z))) ≤ 50
  ∧ (recent_messages (RoomState_init 0%Z) = [] →
     recent_messages (add_messages Demo.entries51 (RoomState_init 0%Z))
       = newest 50 (logged <$> Demo.entries51)
     ∧ ∀ first rest, Demo.entries51 = first :: rest → length rest = 50 →
         recent_messages (add_messages Demo.entries51 (RoomState_init 0%Z))
           = logged <$> rest).
Proof. apply (history_capped_fifo (RoomState_init 0%Z) Demo.entries51). simpl. lia. Defined.

(** ** Elapsed time *)

Lemma seconds_of_datetime_sub (a b : datetime) :
  seconds (datetime_sub a b) = (((a - b) / us_per_second) mod 86400)%Z.
Proof.
  assert (Hus : (0 < us_per_second)%Z) by (unfold us_per_second; lia).
  unfold datetime_sub. cbn [seconds]. unfold us_per_day.
  rewrite (Z.mul_comm 86400 us_per_second).
  rewrite Z.rem_mul_r by lia.
  rewrite (Z.mul_comm us_per_second), Z.div_add by lia.
  rewrite Z.div_small by (apply Z.mod_pos_bound; lia).
  lia.
Qed.

(** [time_elapsed] renders the seconds component of the difference: the
    whole seconds elapsed, modulo one day. *)
Lemma time_elapsed_mod_day (t : datetime) (rs : RoomState) :
  time_elapsed t rs
  = hours_minutes_seconds (((t - start_time rs) / us_per_second) mod 86400).
Proof.
  unfold time_elapsed, hours_minutes_seconds, Py.divmod.
  rewrite seconds_of_datetime_sub.
  set (s := (((t - start_time rs) / us_per_second) mod 86400)%Z).
  rewrite (Z.mod_mod_divide s 3600 60); [done|].
  exists 60%Z. lia.
Qed.

(** Within the first day the rendering is the elapsed duration. *)
Lemma time_elapsed_first_day (t : datetime) (rs : RoomState) :
  (0 ≤ t - start_time rs < us_per_day)%Z →
  time_elapsed t rs = hours_minutes_seconds ((t - start_time rs) / us_per_second).
Proof.
  intros [Hlo Hhi]. rewrite time_elapsed_mod_day. f_equal.
  apply Z.mod_small. unfold us_per_day, us_per_second in *. split.
  - apply Z.div_pos; lia.
  - apply Z.div_lt_upper_bound; lia.
Qed.

(** C6: twenty-five hours after the room was created, [time_elapsed]
    renders one hour, where the elapsed duration in hours, minutes and
    seconds is 25:00:00. *)
Theorem time_elapsed_after_25_hours :
  time_elapsed (25 * 3600 * us_per_second)%Z (RoomState_init 0%Z) = "01:00:00"
  ∧ hours_minutes_seconds 
      (((25 * 3600 * us_per_second) - start_time (RoomState_init 0%Z)) / us_per_second)
    = "25:00:00".
Proof. split; vm_compute; reflexivity. Qed.

(** ** The voice queue *)

(** C8: [say] leaves the synthesizer as it is for an utterance of fewer
    than 6 characters, and appends an utterance of 6 characters or more to
    the queue whenever voice is enabled. *)
Theorem say_length_threshold (speaker text : string) (v : VoiceSynthesizer) :
  (Py.len text < 6 → say speaker text v = v)
  ∧ (6 ≤ Py.len text → enabled v = true →
     say speaker text v
     = {| enabled := true; voice_queue := voice_queue v ++ [(speaker, text)] |}).
Proof.
  unfold say. split.
  - intros Hshort.
    destruct (Nat.ltb_spec 5 (Py.len text)) as [Hlong|_]; [lia|].
    by rewrite andb_false_r.
  - intros Hlong Hon. rewrite Hon.
    destruct (Nat.ltb_spec 5 (Py.len text)) as [_|Hshort]; [|lia].
    destruct text as [|c text]; [simpl in Hlong; lia|]. done.
Qed.

Lemma say_length_threshold_witness :
  say "Alice" "Hello" (mk_voice true []) = mk_voice true []
  ∧ say "Alice" "héllo" (mk_voice true []) = mk_voice true []
  ∧ say "Alice" "Hello!" (mk_voice true []) = mk_voice true [("Alice", "Hello!")]
  ∧ say "Alice" "héllo!" (mk_voice true []) = mk_voice true [("Alice", "héllo!")].
Proof.
  split_and!.
  - apply (proj1 (say_length_threshold "Alice" "Hello" (mk_voice true []))).
    simpl. lia.
  - apply (proj1 (say_length_threshold "Alice" "héllo" (mk_voice true []))).
    vm_compute. lia.
  - apply (proj2 (say_length_threshold "Alice" "Hello!" (mk_voice true []))).
    + simpl. lia.
    + reflexivity.
  - apply (proj2 (say_length_threshold "Alice" "héllo!" (mk_voice true []))).
    + vm_compute. lia.
    + reflexivity.
Defined.

(** ** Reply extraction *)

Lemma extract_reply_no_assistant (messages : list LettaMessage) :
  Forall (λ msg, role msg ≠ "assistant") messages → extract_reply messages = "...".
Proof.
  induction 1 as [|msg rest Hrole _ IH]; [done|]. simpl.
  destruct (String.eqb_spec (role msg) "assistant"); [done|exact IH].
Qed.

Lemma extract_reply_first_assistant (before : list LettaMessage) msg after :
  Forall (λ m, role m ≠ "assistant") before → role msg = "assistant" →
  extract_reply (before ++ msg :: after) = assistant_reply msg.
Proof.
  intros Hbefore Hrole. induction Hbefore as [|m rest Hm _ IH]; simpl.
  - by rewrite Hrole.
  - destruct (String.eqb_spec (role m) "assistant"); [done|exact IH].
Qed.

(** With a tool call on the turn, the reply is the text when there is
    text and the first call's arguments otherwise. *)
Lemma assistant_reply_tool_call msg call calls :
  tool_calls msg = Some (call :: calls) →
  assistant_reply msg = Py.or_default (text msg) (function_arguments call).
Proof. unfold assistant_reply. by intros ->. Qed.

(** Without a tool call the reply is the placeholder, text or no text. *)
Lemma assistant_reply_no_tool_call msg :
  tool_calls msg = None ∨ tool_calls msg = Some [] → assistant_reply msg = "...".
Proof. unfold assistant_reply. by intros [-> | ->]. Qed.

(** C1: a response whose assistant turn has the plain text "Hello there"
    and no tool call makes [send_message] return the placeholder, not the
    text. *)
Theorem send_message_plain_text_reply :
  send_message Demo.plain_text_env "How are you?" "System" Demo.live_agent Demo.store0
  = (Returned "...",
     sent (SendMessage "id-plain" "How are you?" "user") Demo.store0).
Proof. reflexivity. Qed.

(** C10: a proxy without a session answers "Agent not initialized" and
    leaves the store (room state, requests made, clock) as it was. *)
Theorem send_message_not_initialized (env : Environment) (content sender : string)
    (self : RoomAgent) (st : Store) :
  agent_id self = None →
  send_message env content sender self st = (Returned "Agent not initialized", st).
Proof. unfold send_message. by intros ->. Qed.

Lemma send_message_not_initialized_witness :
  send_message Demo.env "hello" "System" (RoomAgent_init "Alice") Demo.store0
  = (Returned "Agent not initialized", Demo.store0).
Proof.
  apply (send_message_not_initialized Demo.env "hello" "System"
           (RoomAgent_init "Alice") Demo.store0).
  reflexivity.
Defined.

(** ** Direct messages *)

(** C5: with an unknown sender or an unknown recipient,
    [send_direct_message] returns the "Unknown ..." string and the room
    (store, agents and voice queue) is what it was. *)
Theorem send_direct_message_unknown (env : Environment)
    (sender_name recipient_name message : string) (r : Room) :
  sender_name ∉ dom (agents r) ∨ recipient_name ∉ dom (agents r) →
  send_direct_message env sender_name recipient_name message r
  = (Returned (if decide (sender_name ∈ dom (agents r))
               then "Unknown recipient: " +:+ recipient_name
               else "Unknown sender: " +:+ sender_name), r).
Proof.
  intros Hunknown. unfold send_direct_message.
  destruct (agents r !! sender_name) as [a|] eqn:Hsender.
  - rewrite decide_True by (apply elem_of_dom; eauto).
    destruct Hunknown as [Hs|Hr].
    + exfalso. apply Hs, elem_of_dom. eauto.
    + apply not_elem_of_dom in Hr. by rewrite Hr.
  - rewrite decide_False by (by apply not_elem_of_dom).
    done.
Qed.

Lemma send_direct_message_unknown_witness :
  send_direct_message Demo.env "Alice" "Eve" "hi" Demo.room
  = (Returned (if decide ("Alice" ∈ dom (agents Demo.room))
               then "Unknown recipient: " +:+ "Eve"
               else "Unknown sender: " +:+ "Alice"), Demo.room).
Proof.
  apply (send_direct_message_unknown Demo.env "Alice" "Eve" "hi" Demo.room).
  right. vm_compute. intros H. discriminate H.
Defined.

(** ** Presence *)

Lemma move_to_alone (present alone : gset string) (n : string) :
  n ∈ present → present ∩ alone = ∅ →
  (present ∖ {[n]}) ∪ (alone ∪ {[n]}) = present ∪ alone
  ∧ (present ∖ {[n]}) ∩ (alone ∪ {[n]}) = ∅.
Proof.
  intros Hin Hdisjoint. split.
  - apply set_eq. intros x. set_unfold.
    destruct (decide (x = n)) as [->|Hne]; intuition.
  - set_unfold. intros x. specialize (Hdisjoint x). intuition.
Qed.

Lemma move_to_present (present alone : gset string) (n : string) :
  n ∈ alone → present ∩ alone = ∅ →
  (present ∪ {[n]}) ∪ (alone ∖ {[n]}) = present ∪ alone
  ∧ (present ∪ {[n]}) ∩ (alone ∖ {[n]}) = ∅.
Proof.
  intros Hin Hdisjoint. split.
  - apply set_eq. intros x. set_unfold.
    destruct (decide (x = n)) as [->|Hne]; intuition.
  - set_unfold. intros x. specialize (Hdisjoint x). intuition.
Qed.

Section Presence.

Variable env : Environment.

Lemma update_time_context_room_state self st :
  room_state (update_time_context env self st).2 = room_state st.
Proof.
  unfold update_time_context.
  destruct (agent_id self) as [id|]; [|done].
  destruct (Py.truthy id); [|done].
  by destruct (update_agent_memory _ _ _).
Qed.

(** What a transition that takes effect does to the proxy and the sets. *)
Lemma leave_room_effect self st out self1 st1 :
  is_present self = true →
  leave_room env self st = (out, self1, st1) →
  self1 = with_is_present false self
  ∧ agents_present (room_state st1) = agents_present (room_state st) ∖ {[name self]}
  ∧ agents_alone (room_state st1) = agents_alone (room_state st) ∪ {[name self]}.
Proof.
  intros Hpresent. unfold leave_room. rewrite Hpresent.
  match goal with |- context [update_time_context env ?a ?s] =>
    pose proof (update_time_context_room_state a s) as Hrs;
    destruct (update_time_context env a s) as [[?|?] st2] end;
    simpl in Hrs; intros [= <- <- <-]; rewrite Hrs; done.
Qed.

Lemma return_to_room_effect self st out self1 st1 :
  is_present self = false →
  return_to_room env self st = (out, self1, st1) →
  self1 = with_is_present true self
  ∧ agents_present (room_state st1) = agents_present (room_state st) ∪ {[name self]}
  ∧ agents_alone (room_state st1) = agents_alone (room_state st) ∖ {[name self]}.
Proof.
  intros Habsent. unfold return_to_room. rewrite Habsent. simpl.
  match goal with |- context [update_time_context env ?a ?s] =>
    pose proof (update_time_context_room_state a s) as Hrs;
    destruct (update_time_context env a s) as [[?|?] st2] end;
    simpl in Hrs; intros [= <- <- <-]; rewrite Hrs; done.
Qed.

(** A transition towards the state the proxy is in changes nothing. *)
Lemma leave_room_absent self st :
  is_present self = false →
  leave_room env self st = (Returned (already Leave self), self, st).
Proof. unfold leave_room. by intros ->. Qed.

Lemma return_to_room_present self st :
  is_present self = true →
  return_to_room env self st = (Returned (already Return self), self, st).
Proof. unfold return_to_room. by intros ->. Qed.

Lemma transition_name t self st :
  name (transition env t self st).1.2 = name self.
Proof.
  destruct t; simpl.
  - destruct (is_present self) eqn:Hp.
    + destruct (leave_room env self st) as [[out self1] st1] eqn:Hrun.
      by destruct (leave_room_effect _ _ _ _ _ Hp Hrun) as (-> & _).
    + by rewrite leave_room_absent.
  - destruct (is_present self) eqn:Hp.
    + by rewrite return_to_room_present.
    + destruct (return_to_room env self st) as [[out self1] st1] eqn:Hrun.
      by destruct (return_to_room_effect _ _ _ _ _ Hp Hrun) as (-> & _).
Qed.

Lemma transition_consistent known t self st :
  consistent known self (room_state st) →
  consistent known (transition env t self st).1.2
    (room_state (transition env t self st).2).
Proof.
  intros (Hcover & Hdisjoint & Hin & Hout).
  destruct t; simpl.
  - destruct (is_present self) eqn:Hp.
    + destruct (leave_room env self st) as [[out self1] st1] eqn:Hrun.
      destruct (leave_room_effect _ _ _ _ _ Hp Hrun) as (-> & Hpres & Halone).
      simpl. unfold consistent. rewrite Hpres, Halone. simpl.
      destruct (move_to_alone _ _ _ (Hin eq_refl) Hdisjoint) as [Hcover' Hdisjoint'].
      split_and!; [congruence|done|done|].
      intros _. apply elem_of_union_r. by apply elem_of_singleton.
    + rewrite leave_room_absent by done. simpl.
      unfold consistent. rewrite Hp. naive_solver.
  - destruct (is_present self) eqn:Hp.
    + rewrite return_to_room_present by done. simpl.
      unfold consistent. rewrite Hp. naive_solver.
    + destruct (return_to_room env self st) as [[out self1] st1] eqn:Hrun.
      destruct (return_to_room_effect _ _ _ _ _ Hp Hrun) as (-> & Hpres & Halone).
      simpl. unfold consistent. rewrite Hpres, Halone. simpl.
      destruct (move_to_present _ _ _ (Hout eq_refl) Hdisjoint) as [Hcover' Hdisjoint'].
      split_and!; [congruence|done| |done].
      intros _. apply elem_of_union_r. by apply elem_of_singleton.
Qed.

Lemma transitions_cons t ts self st :
  transitions env (t :: ts) self st
  = transitions env ts (transition env t self st).1.2 (transition env t self st).2.
Proof.
  unfold transitions. simpl.
  by destruct (transition env t self st) as [[out self1] st1].
Qed.

Lemma transitions_consistent known ts : ∀ self st,
  consistent known self (room_state st) →
  name (transitions env ts self st).1 = name self
  ∧ consistent known (transitions env ts self st).1
      (room_state (transitions env ts self st).2).
Proof.
  induction ts as [|t ts IH]; intros self st Hok; [done|].
  rewrite transitions_cons.
  destruct (IH _ _ (transition_consistent known t self st Hok)) as [Hname Hok'].
  split; [|done]. by rewrite Hname, transition_name.
Qed.

(** After a transition, the same transition again reports the existing
    state and changes neither the proxy nor the store. *)
Lemma transition_twice t self st :
  let '(_, self1, st1) := transition env t self st in
  transition env t self1 st1 = (Returned (already t self1), self1, st1).
Proof.
  destruct (transition env t self st) as [[out self1] st1] eqn:Hrun.
  destruct t; simpl in *.
  - apply leave_room_absent.
    destruct (is_present self) eqn:Hp.
    + by destruct (leave_room_effect _ _ _ _ _ Hp Hrun) as (-> & _).
    + rewrite leave_room_absent in Hrun by done. by injection Hrun as _ <- _.
  - apply return_to_room_present.
    destruct (is_present self) eqn:Hp.
    + rewrite return_to_room_present in Hrun by done. by injection Hrun as _ <- _.
    + by destruct (return_to_room_effect _ _ _ _ _ Hp Hrun) as (-> & _).
Qed.

Lemma leave_room_report self st :
  is_present self = true →
  ∃ out st1,
    leave_room env self st = (out, with_is_present false self, st1)
    ∧ (out = Returned (name self +:+ " withdraws into solitude.") ∨ ∃ e, out = Raised e)
    ∧ agents_present (room_state st1) = agents_present (room_state st) ∖ {[name self]}
    ∧ agents_alone (room_state st1) = agents_alone (room_state st) ∪ {[name self]}.
Proof.
  intros Hp. unfold leave_room. rewrite Hp.
  match goal with |- context [update_time_context env ?a ?s] =>
    pose proof (update_time_context_room_state a s) as Hrs;
    destruct (update_time_context env a s) as [[u|e] st2] end;
    simpl in Hrs; eexists _, _; (split; [reflexivity|]); rewrite Hrs; simpl;
    split_and!; eauto.
Qed.

Lemma return_to_room_report self st :
  is_present self = false →
  ∃ out st1,
    return_to_room env self st = (out, with_is_present true self, st1)
    ∧ (out = Returned (name self +:+ " returns to the room.") ∨ ∃ e, out = Raised e)
    ∧ agents_present (room_state st1) = agents_present (room_state st) ∪ {[name self]}
    ∧ agents_alone (room_state st1) = agents_alone (room_state st) ∖ {[name self]}.
Proof.
  intros Hp. unfold return_to_room. rewrite Hp. cbn [negb].
  match goal with |- context [update_time_context env ?a ?s] =>
    pose proof (update_time_context_room_state a s) as Hrs;
    destruct (update_time_context env a s) as [[u|e] st2] end;
    simpl in Hrs; eexists _, _; (split; [reflexivity|]); rewrite Hrs; simpl;
    split_and!; eauto.
Qed.

(** What one transition does to a proxy whose flag agrees with the sets:
    the persona ends in the target set and only there, no other persona
    moves, the string returned says what happened, and the same call
    again reports the state the proxy is then in. *)
Lemma transition_takes_effect t self st :
  agents_present (room_state st) ∩ agents_alone (room_state st) = ∅ →
  (is_present self = true → name self ∈ agents_present (room_state st)) →
  (is_present self = false → name self ∈ agents_alone (room_state st)) →
  let '(out, self2, st2) := transition env t self st in
  let rs2 := room_state st2 in
  match t with
  | Leave => is_present self2 = false ∧ name self ∈ agents_alone rs2
             ∧ name self ∉ agents_present rs2
  | Return => is_present self2 = true ∧ name self ∈ agents_present rs2
              ∧ name self ∉ agents_alone rs2
  end
  ∧ (∀ other, other ≠ name self →
       (other ∈ agents_present rs2 ↔ other ∈ agents_present (room_state st))
       ∧ (other ∈ agents_alone rs2 ↔ other ∈ agents_alone (room_state st)))
  ∧ match t, is_present self with
    | Leave, true =>
        out = Returned (name self +:+ " withdraws into solitude.") ∨ ∃ e, out = Raised e
    | Leave, false =>
        out = Returned (name self +:+ " is already alone.") ∧ self2 = self ∧ st2 = st
    | Return, false =>
        out = Returned (name self +:+ " returns to the room.") ∨ ∃ e, out = Raised e
    | Return, true =>
        out = Returned (name self +:+ " is already present.") ∧ self2 = self ∧ st2 = st
    end
  ∧ transition env t self2 st2
    = (Returned (match t with
                 | Leave => name self +:+ " is already alone."
                 | Return => name self +:+ " is already present."
                 end), self2, st2).
Proof.
  intros Hdisjoint Hin Hout.
  assert (∀ x, x ∈ agents_present (room_state st) → x ∈ agents_alone (room_state st)
               → False) as Hexcl.
  { intros x Hp Ha. apply (not_elem_of_empty (C:=gset string) x).
    rewrite <- Hdisjoint. by apply elem_of_intersection. }
  destruct t; cbn [transition]; destruct (is_present self) eqn:Hp.
  - destruct (leave_room_report self st Hp) as (out & st1 & -> & Hreport & Hp1 & Ha1).
    cbn zeta. rewrite Hp1, Ha1. split_and!.
    + done.
    + set_unfold. by right.
    + set_unfold. intros [_ Hne]. by apply Hne.
    + intros other Hother. set_unfold. intuition.
    + done.
    + by rewrite leave_room_absent.
  - rewrite leave_room_absent by done. cbn zeta. split_and!; try done.
    + by apply Hout.
    + intros Hpres. by apply (Hexcl (name self) Hpres), Hout.
    + by rewrite leave_room_absent.
  - rewrite return_to_room_present by done. cbn zeta. split_and!; try done.
    + by apply Hin.
    + intros Halone. by apply (Hexcl (name self) (Hin eq_refl)).
    + by rewrite return_to_room_present.
  - destruct (return_to_room_report self st Hp) as (out & st1 & -> & Hreport & Hp1 & Ha1).
    cbn zeta. rewrite Hp1, Ha1. split_and!.
    + done.
    + set_unfold. by right.
    + set_unfold. intros [_ Hne]. by apply Hne.
    + intros other Hother. set_unfold. intuition.
    + done.
    + by rewrite return_to_room_present.
Qed.

(** C2: after any sequence of [leave_room]/[return_to_room] calls on a
    proxy that starts present, the persona is in exactly one of
    [agents_present] and [agents_alone], the two sets still partition
    the known personas, [is_present] says which set the persona is in,
    and a transition repeated straight after itself reports the existing
    state and leaves proxy and store unchanged.  From any such point a
    transition takes effect: the persona ends in the target set and only
    there with its flag to match, no other persona moves, the string
    returned is the one for that change (or the refresh raised) or, when
    the proxy was already there, the "already" string with nothing
    changed; the same call again answers "is already alone." after a
    leave and "is already present." after a return, which is then the
    state of the flag and of the sets. *)
Theorem presence_partition (known : gset string) (self : RoomAgent) (st : Store)
    (ts : list Transition) :
  is_present self = true →
  name self ∈ agents_present (room_state st) →
  agents_present (room_state st) ∪ agents_alone (room_state st) = known →
  agents_present (room_state st) ∩ agents_alone (room_state st) = ∅ →
  let '(self1, st1) := transitions env ts self st in
  let rs1 := room_state st1 in
  name self1 = name self
  ∧ ((name self ∈ agents_present rs1 ∧ name self ∉ agents_alone rs1)
     ∨ ((name self ∉ agents_present rs1) ∧ name self ∈ agents_alone rs1))
  ∧ agents_present rs1 ∪ agents_alone rs1 = known
  ∧ agents_present rs1 ∩ agents_alone rs1 = ∅
  ∧ (is_present self1 = true ↔ name self ∈ agents_present rs1)
  ∧ (is_present self1 = false ↔ name self ∈ agents_alone rs1)
  ∧ (∀ t, let '(_, self2, st2) := transition env t self1 st1 in
          transition env t self2 st2 = (Returned (already t self2), self2, st2))
  ∧ (∀ t, let '(out, self2, st2) := transition env t self1 st1 in
          let rs2 := room_state st2 in
          match t with
          | Leave => is_present self2 = false ∧ name self ∈ agents_alone rs2
                     ∧ name self ∉ agents_present rs2
          | Return => is_present self2 = true ∧ name self ∈ agents_present rs2
                      ∧ name self ∉ agents_alone rs2
          end
          ∧ (∀ other, other ≠ name self →
               (other ∈ agents_present rs2 ↔ other ∈ agents_present rs1)
               ∧ (other ∈ agents_alone rs2 ↔ other ∈ agents_alone rs1))
          ∧ match t, is_present self1 with
            | Leave, true =>
                out = Returned (name self +:+ " withdraws into solitude.")
                ∨ ∃ e, out = Raised e
            | Leave, false =>
                out = Returned (name self +:+ " is already alone.")
                ∧ self2 = self1 ∧ st2 = st1
            | Return, false =>
                out = Returned (name self +:+ " returns to the room.")
                ∨ ∃ e, out = Raised e
            | Return, true =>
                out = Returned (name self +:+ " is already present.")
                ∧ self2 = self1 ∧ st2 = st1
            end
          ∧ transition env t self2 st2
            = (Returned (match t with
                         | Leave => name self +:+ " is already alone."
                         | Return => name self +:+ " is already present."
                         end), self2, st2)).
Proof.
  intros Hflag Hin Hcover Hdisjoint.
  assert (consistent known self (room_state st)) as Hok.
  { unfold consistent. rewrite Hflag. naive_solver. }
  destruct (transitions_consistent known ts self st Hok) as [Hname Hok'].
  destruct (transitions env ts self st) as [self1 st1]. simpl in *.
  destruct Hok' as (Hcover' & Hdisjoint' & Hin' & Hout').
  rewrite Hname in Hin', Hout'. clear Hok Hcover Hin Hdisjoint.
  assert (name self ∈ agents_present (room_state st1)
          → name self ∉ agents_alone (room_state st1)) as Hexcl
    by (intros Hp Ha; apply (not_elem_of_empty (C:=gset string) (name self));
        rewrite <- Hdisjoint'; by apply elem_of_intersection).
  split_and!; [done| |done|done| | | |].
  - destruct (is_present self1); [left|right]; split; auto.
    intros Hp. by apply (Hexcl Hp), Hout'.
  - split; [done|]. destruct (is_present self1); [done|].
    intros Hp. by destruct (Hexcl Hp (Hout' eq_refl)).
  - split; [done|]. destruct (is_present self1); [|done].
    intros Ha. by destruct (Hexcl (Hin' eq_refl) Ha).
  - intros t. apply transition_twice.
  - intros t. rewrite <- Hname in Hin', Hout' |- *.
    by apply transition_takes_effect.
Qed.

End Presence.

(** ** Delivery *)

Section Delivery.

Variable env : Environment.

Lemma send_message_live content sender self st id messages :
  agent_id self = Some id → id ≠ "" →
  client_send_message (client env) (requests st) (SendMessage id content "user")
    = Some messages →
  send_message env content sender self st
  = (Returned (extract_reply messages), sent (SendMessage id content "user") st).
Proof.
  intros Hid Hne Hanswer. unfold send_message. rewrite Hid. simpl.
  destruct id as [|c id]; [done|]. simpl. by rewrite Hanswer.
Qed.

Lemma add_message_last t sender content recipient rs :
  last (recent_messages (add_message t sender content recipient rs))
  = Some (logged (t, sender, content, recipient)).
Proof.
  unfold add_message, logged, pop0. cbn [recent_messages].
  match goal with |- context [(50 <? ?n)%nat] =>
    destruct (Nat.ltb_spec 50 n) as [Hfull|_] end; [|by rewrite last_snoc].
  destruct (recent_messages rs) as [|m older]; [simpl in Hfull; lia|].
  rewrite <- app_comm_cons, skipn_cons, drop_0. by rewrite last_snoc.
Qed.

Lemma add_messages_cons e entries rs :
  add_messages (e :: entries) rs
  = add_messages entries (add_message e.1.1.1 e.1.1.2 e.1.2 e.2 rs).
Proof. by destruct e as [[[t sender] content] recipient]. Qed.

Lemma add_messages_presence entries : ∀ rs,
  agents_present (add_messages entries rs) = agents_present rs
  ∧ agents_alone (add_messages entries rs) = agents_alone rs
  ∧ start_time (add_messages entries rs) = start_time rs.
Proof.
  induction entries as [|e entries IH]; intros rs; [done|].
  rewrite add_messages_cons.
  destruct (IH (add_message e.1.1.1 e.1.1.2 e.1.2 e.2 rs)) as (-> & -> & ->).
  done.
Qed.

Lemma announcement_entries_S message st n :
  announcement_entries env message st (S n)
  = (now env st, "Loudspeaker", message, None)
      :: announcement_entries env message
           (record env "Loudspeaker" message None st) n.
Proof.
  unfold announcement_entries, now. simpl. rewrite Nat.add_0_r. f_equal.
  rewrite <- fmap_S_seq, <- list_fmap_compose.
  apply list_fmap_ext. intros i j _. simpl. do 4 f_equal. lia.
Qed.

Lemma broadcast_loop_returns message : ∀ present responses r,
  answers env →
  (∀ n, n ∈ present →
     ∃ agent id, agents r !! n = Some agent ∧ agent_id agent = Some id ∧ id ≠ "") →
  ∃ replies deliveries r',
    broadcast_loop env message present responses r
    = (Returned (Py.join Py.nl (responses ++ zip_with reply_line present replies)), r')
    ∧ length replies = length present
    ∧ Forall2 (announced_to r message) present deliveries
    ∧ (∀ i req, deliveries !! i = Some req →
         ∃ messages,
           client_send_message (client env)
             (requests (store r) ++ take i deliveries) req = Some messages
           ∧ replies !! i = Some (extract_reply messages))
    ∧ requests (store r') = requests (store r) ++ deliveries
    ∧ room_state (store r')
      = add_messages (announcement_entries env message (store r) (length present))
          (room_state (store r))
    ∧ agents r' = agents r.
Proof.
  induction present as [|n rest IH]; intros responses r Hanswers Hlive.
  - exists [], [], r. simpl. rewrite !app_nil_r.
    split_and!; done.
  - destruct (Hlive n) as (agent & id & Hagent & Hid & Hne); [by left|].
    set (req := SendMessage id (announcement message) "user").
    destruct (Hanswers (requests (store r)) id (announcement message) "user")
      as [messages Hmessages].
    cbn [broadcast_loop]. rewrite Hagent.
    rewrite (send_message_live _ _ _ _ id messages Hid Hne Hmessages).
    fold req.
    match goal with |- context [broadcast_loop env message rest ?resp ?r1] =>
      destruct (IH resp r1 Hanswers) as
        (replies & deliveries & r' & Hrun & Hlen & Hsent & Hreplies & Hreqs & Hrs & Hagents)
    end.
    { intros m Hm. apply Hlive. by right. }
    exists (extract_reply messages :: replies), (req :: deliveries), r'.
    rewrite Hrun. split_and!.
    + simpl. by rewrite <- app_assoc.
    + simpl. by rewrite Hlen.
    + constructor; [by exists agent, id|done].
    + intros [|i] req' Hi; simpl in Hi |- *.
      * injection Hi as <-. exists messages. by rewrite app_nil_r.
      * destruct (Hreplies i req' Hi) as (messages' & Hanswer' & Hreply').
        exists messages'. split; [|done].
        simpl in Hanswer'. by rewrite <- app_assoc in Hanswer'.
    + rewrite Hreqs. simpl. by rewrite <- app_assoc.
    + rewrite Hrs. change (length (n :: rest)) with (S (length rest)).
      rewrite announcement_entries_S, add_messages_cons. done.
    + done.
Qed.

(** C4: with nobody present, [broadcast] returns the "unheard" string
    and the room (requests made, history, voice queue) is what it was.
    With [n] personas present, each with a live session, and a client
    that answers, it sends the announcer-labelled message once to each
    present persona's session, the history receives [n] entries with
    sender "Loudspeaker" and recipient "room" (the newest 50 are kept),
    and the string returned has one reply line per present persona. *)
Theorem broadcast_delivery (message : string) (r : Room) :
  (∀ X, set_iter env X ≡ₚ elements X) →
  let rs := room_state (store r) in
  let present := get_present_agents env rs in
  (agents_present rs = ∅ →
   broadcast env message r
   = (Returned "The room is empty. Your words echo unheard.", r))
  ∧ (agents_present rs ≠ ∅ →
     answers env →
     (∀ n, n ∈ agents_present rs →
        ∃ agent id, agents r !! n = Some agent ∧ agent_id agent = Some id ∧ id ≠ "") →
     length (recent_messages rs) ≤ 50 →
     length present = size (agents_present rs)
     ∧ ∃ replies deliveries r',
         broadcast env message r
         = (Returned (Py.join Py.nl (zip_with reply_line present replies)), r')
         ∧ length replies = length present
         ∧ Forall2 (announced_to r message) present deliveries
         ∧ (∀ i req, deliveries !! i = Some req →
              ∃ messages,
                client_send_message (client env)
                  (requests (store r) ++ take i deliveries) req = Some messages
                ∧ replies !! i = Some (extract_reply messages))
         ∧ requests (store r') = requests (store r) ++ deliveries
         ∧ recent_messages (room_state (store r'))
           = newest 50
               (recent_messages rs
                  ++ (logged <$> announcement_entries env message (store r)
                                   (length present)))
         ∧ Forall (λ m, msg_sender m = "Loudspeaker" ∧ msg_content m = message
                        ∧ msg_recipient m = "room")
             (logged <$> announcement_entries env message (store r) (length present))
         ∧ agents_present (room_state (store r')) = agents_present rs
         ∧ agents_alone (room_state (store r')) = agents_alone rs
         ∧ agents r' = agents r).
Proof.
  intros Horder rs present. split.
  - intros Hempty. unfold broadcast, get_present_agents. fold rs.
    pose proof (Horder (agents_present rs)) as Hperm.
    rewrite Hempty, elements_empty in Hperm.
    apply Permutation_nil_r in Hperm. by rewrite Hempty, Hperm.
  - intros Hsome Hanswers Hlive Hcap.
    assert (present ≡ₚ elements (agents_present rs)) as Hperm by apply Horder.
    split; [by rewrite Hperm|].
    unfold broadcast.
    change (get_present_agents env (room_state (store r))) with present.
    clearbody present.
    destruct present as [|n rest] eqn:Hpresent.
    { symmetry in Hperm. apply Permutation_nil_r in Hperm.
      apply elements_empty_inv, leibniz_equiv in Hperm. done. }
    rewrite <- Hpresent in *.
    match goal with |- context [broadcast_loop env message present [] ?r1] =>
      destruct (broadcast_loop_returns message present [] r1 Hanswers) as
        (replies & deliveries & r' & Hrun & Hlen & Hsent & Hreplies & Hreqs & Hrs & Hagents)
    end.
    { intros m Hm. apply Hlive. apply elem_of_elements. by rewrite <- Hperm. }
    exists replies, deliveries, r'. simpl in Hrun, Hreplies, Hreqs, Hrs, Hagents.
    destruct (add_messages_presence
                (announcement_entries env message (store r) (length present)) rs)
      as (Hp & Ha & _).
    fold rs in Hrs.
    split_and!; try done.
    + rewrite Hrs. by apply add_messages_recent.
    + rewrite Forall_fmap. unfold announcement_entries.
      rewrite Forall_fmap. by apply Forall_true.
    + by rewrite Hrs.
    + by rewrite Hrs.
Qed.

(** C7: a direct message between two known personas is sent to the
    recipient's session and recorded as the newest history entry under
    the recipient's name, wherever sender and recipient are (present or
    alone); the presence sets are not touched. *)
Theorem direct_message_delivery (sender_name recipient_name message : string)
    (r : Room) (recipient : RoomAgent) (id : string) (messages : list LettaMessage) :
  sender_name ∈ dom (agents r) →
  agents r !! recipient_name = Some recipient →
  recipient_name ≠ "" →
  agent_id recipient = Some id → id ≠ "" →
  client_send_message (client env) (requests (store r))
    (SendMessage id (sender_name +:+ " says: " +:+ message) "user") = Some messages →
  ∃ r',
    send_direct_message env sender_name recipient_name message r
    = (Returned (reply_line recipient_name (extract_reply messages)), r')
    ∧ requests (store r')
      = requests (store r)
          ++ [SendMessage id (sender_name +:+ " says: " +:+ message) "user"]
    ∧ room_state (store r')
      = add_message (now env (store r)) sender_name message (Some recipient_name)
          (room_state (store r))
    ∧ last (recent_messages (room_state (store r')))
      = Some {| msg_time := strftime_HMS (now env (store r));
                msg_sender := sender_name; msg_content := message;
                msg_recipient := recipient_name |}
    ∧ agents_present (room_state (store r')) = agents_present (room_state (store r))
    ∧ agents_alone (room_state (store r')) = agents_alone (room_state (store r))
    ∧ agents r' = agents r.
Proof.
  intros Hsender Hrecipient Hname Hid Hne Hanswer.
  apply elem_of_dom in Hsender as [sender Hsender].
  unfold send_direct_message. rewrite Hsender, Hrecipient.
  rewrite (send_message_live _ _ _ _ id messages Hid Hne Hanswer).
  eexists. split; [reflexivity|].
  unfold record, tick, with_room_state, sent.
  cbn [store room_state requests agents].
  split_and!; try done.
  rewrite add_message_last. unfold logged.
  destruct recipient_name as [|c rest]; done.
Qed.

End Delivery.

(** ** The properties on the demonstration room *)

Example bob_withdrawn :
  "Bob" ∈ agents_alone (room_state (store Demo.room_without_bob))
  ∧ ("Bob" ∉ agents_present (room_state (store Demo.room_without_bob)))
  ∧ is_present <$> agents Demo.room_without_bob !! "Bob" = Some false.
Proof. split_and!; vm_compute; (reflexivity || (intros H; discriminate H)). Qed.

Lemma presence_partition_witness :
  let '(self1, st1) :=
    transitions Demo.env [Leave; Leave; Return; Leave] Demo.bob (store Demo.room) in
  let rs1 := room_state st1 in
  name self1 = name Demo.bob
  ∧ ((name Demo.bob ∈ agents_present rs1 ∧ name Demo.bob ∉ agents_alone rs1)
     ∨ ((name Demo.bob ∉ agents_present rs1) ∧ name Demo.bob ∈ agents_alone rs1))
  ∧ agents_present rs1 ∪ agents_alone rs1 = list_to_set PERSONA_NAMES
  ∧ agents_present rs1 ∩ agents_alone rs1 = ∅
  ∧ (is_present self1 = true ↔ name Demo.bob ∈ agents_present rs1)
  ∧ (is_present self1 = false ↔ name Demo.bob ∈ agents_alone rs1)
  ∧ (∀ t, let '(_, self2, st2) := transition Demo.env t self1 st1 in
          transition Demo.env t self2 st2 = (Returned (already t self2), self2, st2))
  ∧ (∀ t, let '(out, self2, st2) := transition Demo.env t self1 st1 in
          let rs2 := room_state st2 in
          match t with
          | Leave => is_present self2 = false ∧ name Demo.bob ∈ agents_alone rs2
                     ∧ name Demo.bob ∉ agents_present rs2
          | Return => is_present self2 = true ∧ name Demo.bob ∈ agents_present rs2
                      ∧ name Demo.bob ∉ agents_alone rs2
          end
          ∧ (∀ other, other ≠ name Demo.bob →
               (other ∈ agents_present rs2 ↔ other ∈ agents_present rs1)
               ∧ (other ∈ agents_alone rs2 ↔ other ∈ agents_alone rs1))
          ∧ match t, is_present self1 with
            | Leave, true =>
                out = Returned (name Demo.bob +:+ " withdraws into solitude.")
                ∨ ∃ e, out = Raised e
            | Leave, false =>
                out = Returned (name Demo.bob +:+ " is already alone.")
                ∧ self2 = self1 ∧ st2 = st1
            | Return, false =>
                out = Returned (name Demo.bob +:+ " returns to the room.")
                ∨ ∃ e, out = Raised e
            | Return, true =>
                out = Returned (name Demo.bob +:+ " is already present.")
                ∧ self2 = self1 ∧ st2 = st1
            end
          ∧ transition Demo.env t self2 st2
            = (Returned (match t with
                         | Leave => name Demo.bob +:+ " is already alone."
                         | Return => name Demo.bob +:+ " is already present."
                         end), self2, st2)).
Proof.
  apply (presence_partition Demo.env (list_to_set PERSONA_NAMES) Demo.bob
           (store Demo.room) [Leave; Leave; Return; Leave]);
    vm_compute; reflexivity.
Defined.

Lemma direct_message_delivery_witness :
  ∃ r',
    send_direct_message Demo.env "Alice" "Bob" "hi" Demo.room_without_bob
    = (Returned (reply_line "Bob" (extract_reply Demo.answer_to_bob)), r')
    ∧ requests (store r')
      = requests (store Demo.room_without_bob)
          ++ [SendMessage "id-agent_bob" ("Alice" +:+ " says: " +:+ "hi") "user"]
    ∧ room_state (store r')
      = add_message (now Demo.env (store Demo.room_without_bob)) "Alice" "hi" (Some "Bob")
          (room_state (store Demo.room_without_bob))
    ∧ last (recent_messages (room_state (store r')))
      = Some {| msg_time := strftime_HMS (now Demo.env (store Demo.room_without_bob));
                msg_sender := "Alice"; msg_content := "hi"; msg_recipient := "Bob" |}
    ∧ agents_present (room_state (store r'))
      = agents_present (room_state (store Demo.room_without_bob))
    ∧ agents_alone (room_state (store r'))
      = agents_alone (room_state (store Demo.room_without_bob))
    ∧ agents r' = agents Demo.room_without_bob.
Proof.
  apply (direct_message_delivery Demo.env "Alice" "Bob" "hi" Demo.room_without_bob
           (with_is_present false Demo.bob) "id-agent_bob" Demo.answer_to_bob).
  - apply elem_of_dom. eexists. vm_compute. reflexivity.
  - vm_compute. reflexivity.
  - intros H. discriminate H.
  - vm_compute. reflexivity.
  - intros H. discriminate H.
  - vm_compute. reflexivity.
Defined.

Lemma demo_sessions (n : string) :
  n ∈ agents_present (room_state (store Demo.room)) →
  ∃ agent id, agents Demo.room !! n = Some agent ∧ agent_id agent = Some id ∧ id ≠ "".
Proof.
  rewrite demo_room_present. unfold PERSONA_NAMES. set_unfold.
  intros [->|[->|[->|[->|[]]]]]; eexists _, _;
    (split_and!; [vm_compute; reflexivity | reflexivity | intros H; discriminate H]).
Defined.

Lemma broadcast_delivery_witness :
  broadcast Demo.env "hello" (Room_init Demo.env true)
  = (Returned "The room is empty. Your words echo unheard.", Room_init Demo.env true)
  ∧ length (get_present_agents Demo.env (room_state (store Demo.room))) = 4
  ∧ ∃ replies deliveries r',
      broadcast Demo.env "hello" Demo.room
      = (Returned (Py.join Py.nl
           (zip_with reply_line
              (get_present_agents Demo.env (room_state (store Demo.room))) replies)), r')
      ∧ length replies = 4
      ∧ Forall2 (announced_to Demo.room "hello")
          (get_present_agents Demo.env (room_state (store Demo.room))) deliveries
      ∧ requests (store r') = requests (store Demo.room) ++ deliveries
      ∧ recent_messages (room_state (store r'))
        = logged <$> announcement_entries Demo.env "hello" (store Demo.room) 4
      ∧ Forall (λ m, msg_sender m = "Loudspeaker" ∧ msg_content m = "hello"
                     ∧ msg_recipient m = "room")
          (recent_messages (room_state (store r'))).
Proof.
  assert (∀ X, set_iter Demo.env X ≡ₚ elements X) as Horder by done.
  split; [|split].
  - apply (proj1 (broadcast_delivery Demo.env "hello" (Room_init Demo.env true) Horder)).
    reflexivity.
  - vm_compute. reflexivity.
  - destruct (proj2 (broadcast_delivery Demo.env "hello" Demo.room Horder))
      as (_ & replies & deliveries & r' & Hrun & Hlen & Hsent & _ & Hreqs & Hrecent
          & Hentries & _).
    + rewrite demo_room_present. vm_compute. intros H. discriminate H.
    + intros log id content role. eexists. reflexivity.
    + exact demo_sessions.
    + vm_compute. lia.
    + exists replies, deliveries, r'.
      split_and!; [exact Hrun|exact Hlen|exact Hsent|exact Hreqs| |].
      * rewrite Hrecent. vm_compute. reflexivity.
      * rewrite Hrecent. vm_compute. repeat constructor.
Defined.

(** * Further properties of the room *)

Section Frames.

Variable env : Environment.

Lemma send_message_room_state content sender self st :
  room_state (send_message env content sender self st).2 = room_state st.
Proof.
  unfold send_message. destruct (negb _); [done|].
  by destruct (client_send_message _ _ _).
Qed.

Lemma record_room_state sender content recipient st :
  room_state (record env sender content recipient st)
  = add_message (now env st) sender content recipient (room_state st).
Proof. done. Qed.

Lemma add_message_fixed t sender content recipient rs :
  agents_present (add_message t sender content recipient rs) = agents_present rs
  ∧ agents_alone (add_message t sender content recipient rs) = agents_alone rs
  ∧ start_time (add_message t sender content recipient rs) = start_time rs.
Proof. done. Qed.

Lemma add_message_capped t sender content recipient rs :
  length (recent_messages rs) ≤ 50 →
  length (recent_messages (add_message t sender content recipient rs)) ≤ 50.
Proof.
  intros Hcap. rewrite add_message_recent by done. apply newest_length.
Qed.

(** What one pass of the loop of [broadcast] can do to the room, however
    it ends. *)
Lemma broadcast_loop_frame message : ∀ present responses r,
  let r' := (broadcast_loop env message present responses r).2 in
  agents r' = agents r
  ∧ agents_present (room_state (store r')) = agents_present (room_state (store r))
  ∧ agents_alone (room_state (store r')) = agents_alone (room_state (store r))
  ∧ start_time (room_state (store r')) = start_time (room_state (store r))
  ∧ (length (recent_messages (room_state (store r))) ≤ 50 →
     length (recent_messages (room_state (store r'))) ≤ 50).
Proof.
  induction present as [|n rest IH]; intros responses r; [done|].
  cbn [broadcast_loop].
  destruct (agents r !! n) as [agent|]; [|done].
  pose proof (send_message_room_state (announcement message) "Operator" agent (store r))
    as Hrs. unfold announcement in Hrs.
  destruct (send_message env _ "Operator" agent (store r)) as [[response|e] st].
  - simpl in Hrs.
    match goal with |- context [broadcast_loop env message rest ?resp ?r1] =>
      specialize (IH resp r1); destruct IH as (Ha & Hp & Hal & Hst & Hcap) end.
    cbn [store agents] in Ha, Hp, Hal, Hst, Hcap.
    rewrite record_room_state, Hrs in Hp, Hal, Hst, Hcap.
    split_and!; [done|done|done|done|].
    intros Hle. by apply Hcap, add_message_capped.
  - simpl in Hrs |- *. rewrite Hrs. done.
Qed.

Lemma broadcast_frame message r :
  let r' := (broadcast env message r).2 in
  agents r' = agents r
  ∧ agents_present (room_state (store r')) = agents_present (room_state (store r))
  ∧ agents_alone (room_state (store r')) = agents_alone (room_state (store r))
  ∧ start_time (room_state (store r')) = start_time (room_state (store r))
  ∧ (length (recent_messages (room_state (store r))) ≤ 50 →
     length (recent_messages (room_state (store r'))) ≤ 50).
Proof.
  unfold broadcast.
  destruct (get_present_agents env (room_state (store r))) as [|n rest]; [done|].
  exact (broadcast_loop_frame message (n :: rest) []
           {| store := store r; agents := agents r;
              voice := say "Loudspeaker" message (voice r) |}).
Qed.

Lemma send_direct_message_frame sender_name recipient_name message r :
  let r' := (send_direct_message env sender_name recipient_name message r).2 in
  agents r' = agents r
  ∧ agents_present (room_state (store r')) = agents_present (room_state (store r))
  ∧ agents_alone (room_state (store r')) = agents_alone (room_state (store r))
  ∧ start_time (room_state (store r')) = start_time (room_state (store r))
  ∧ (length (recent_messages (room_state (store r))) ≤ 50 →
     length (recent_messages (room_state (store r'))) ≤ 50).
Proof.
  unfold send_direct_message.
  destruct (agents r !! sender_name) as [sender|]; [|done].
  destruct (agents r !! recipient_name) as [recipient|]; [|done].
  pose proof (send_message_room_state (sender_name +:+ " says: " +:+ message)
                sender_name recipient (store r)) as Hrs.
  destruct (send_message env _ sender_name recipient (store r)) as [[response|e] st];
    cbn [snd store agents] in Hrs |- *.
  - rewrite record_room_state, Hrs.
    split_and!; [done|done|done|done|]. apply add_message_capped.
  - by rewrite Hrs.
Qed.

Lemma update_time_context_store self st :
  room_state (update_time_context env self st).2 = room_state st.
Proof. apply update_time_context_room_state. Qed.

Lemma leave_room_history self st :
  recent_messages (room_state (leave_room env self st).2)
    = recent_messages (room_state st)
  ∧ start_time (room_state (leave_room env self st).2) = start_time (room_state st).
Proof.
  unfold leave_room. destruct (is_present self); [|done].
  match goal with |- context [update_time_context env ?a ?s] =>
    pose proof (update_time_context_room_state env a s) as Hrs;
    destruct (update_time_context env a s) as [[?|?] st2] end;
    simpl in Hrs |- *; by rewrite Hrs.
Qed.

Lemma return_to_room_history self st :
  recent_messages (room_state (return_to_room env self st).2)
    = recent_messages (room_state st)
  ∧ start_time (room_state (return_to_room env self st).2) = start_time (room_state st).
Proof.
  unfold return_to_room. destruct (negb (is_present self)); [|done].
  match goal with |- context [update_time_context env ?a ?s] =>
    pose proof (update_time_context_room_state env a s) as Hrs;
    destruct (update_time_context env a s) as [[?|?] st2] end;
    simpl in Hrs |- *; by rewrite Hrs.
Qed.

End Frames.

(** ** One invariant for the whole command loop *)

Section Loop.

Variable env : Environment.

Lemma room_consistent_frame r r' :
  agents r' = agents r →
  agents_present (room_state (store r')) = agents_present (room_state (store r)) →
  agents_alone (room_state (store r')) = agents_alone (room_state (store r)) →
  room_consistent r → room_consistent r'.
Proof. unfold room_consistent. simpl. by intros -> -> ->. Qed.

Lemma command_leave_consistent agent_name r :
  room_consistent r → room_consistent (command_leave env agent_name r).2.
Proof.
  intros (Hcover & Hdisjoint & Hagents). unfold command_leave.
  destruct (agents r !! agent_name) as [agent|] eqn:Hagent; [|done].
  destruct (Hagents _ _ Hagent) as [Hname Hflag].
  assert (agent_name ∈ dom (agents r)) as Hdom by (apply elem_of_dom; eauto).
  destruct (is_present agent) eqn:Hp.
  - destruct (leave_room env agent (store r)) as [[out agent1] st] eqn:Hrun.
    destruct (leave_room_effect env _ _ _ _ _ Hp Hrun) as (-> & Hpres & Halone).
    rewrite Hname in Hpres, Halone.
    destruct (move_to_alone _ _ agent_name (proj1 Hflag eq_refl) Hdisjoint)
      as [Hcover' Hdisjoint'].
    unfold room_consistent. cbn [snd store agents]. rewrite Hpres, Halone.
    split_and!.
    + rewrite Hcover', Hcover, dom_insert_L.
      apply set_eq. intros x. set_unfold. intuition congruence.
    + done.
    + intros k a Hk. destruct (decide (k = agent_name)) as [->|Hne].
      * rewrite lookup_insert_eq in Hk. injection Hk as <-. simpl.
        split; [done|]. split; [done|]. set_unfold. intuition.
      * rewrite lookup_insert_ne in Hk by done.
        destruct (Hagents _ _ Hk) as [Hn Hf]. split; [done|].
        rewrite Hf. set_unfold. intuition.
  - rewrite leave_room_absent by done. cbn [snd].
    apply (room_consistent_frame r); [|done|done|by split_and!].
    cbn [agents]. by apply insert_id.
Qed.

Lemma command_return_consistent agent_name r :
  room_consistent r → room_consistent (command_return env agent_name r).2.
Proof.
  intros (Hcover & Hdisjoint & Hagents). unfold command_return.
  destruct (agents r !! agent_name) as [agent|] eqn:Hagent; [|done].
  destruct (Hagents _ _ Hagent) as [Hname Hflag].
  assert (agent_name ∈ dom (agents r)) as Hdom by (apply elem_of_dom; eauto).
  destruct (is_present agent) eqn:Hp.
  - rewrite return_to_room_present by done. cbn [snd].
    apply (room_consistent_frame r); [|done|done|by split_and!].
    cbn [agents]. by apply insert_id.
  - assert (agent_name ∈ agents_alone (room_state (store r))) as Halone0.
    { rewrite <- Hcover in Hdom. apply elem_of_union in Hdom as [Hin|Hin]; [|done].
      apply Hflag in Hin. congruence. }
    destruct (return_to_room env agent (store r)) as [[out agent1] st] eqn:Hrun.
    destruct (return_to_room_effect env _ _ _ _ _ Hp Hrun) as (-> & Hpres & Halone).
    rewrite Hname in Hpres, Halone.
    destruct (move_to_present _ _ agent_name Halone0 Hdisjoint)
      as [Hcover' Hdisjoint'].
    unfold room_consistent. cbn [snd store agents]. rewrite Hpres, Halone.
    split_and!.
    + rewrite Hcover', Hcover, dom_insert_L.
      apply set_eq. intros x. set_unfold. intuition congruence.
    + done.
    + intros k a Hk. destruct (decide (k = agent_name)) as [->|Hne].
      * rewrite lookup_insert_eq in Hk. injection Hk as <-. simpl.
        split; [done|]. split; [|done]. intros _. set_unfold. by right.
      * rewrite lookup_insert_ne in Hk by done.
        destruct (Hagents _ _ Hk) as [Hn Hf]. split; [done|].
        rewrite Hf. set_unfold. intuition.
Qed.

Lemma command_leave_fixed agent_name r :
  dom (agents (command_leave env agent_name r).2) = dom (agents r)
  ∧ recent_messages (room_state (store (command_leave env agent_name r).2))
    = recent_messages (room_state (store r))
  ∧ start_time (room_state (store (command_leave env agent_name r).2))
    = start_time (room_state (store r)).
Proof.
  unfold command_leave.
  destruct (agents r !! agent_name) as [agent|] eqn:Hagent; [|done].
  destruct (leave_room_history env agent (store r)) as [Hrecent Hstart].
  destruct (leave_room env agent (store r)) as [[out agent1] st].
  cbn [snd store agents] in *. split_and!; [|done|done].
  rewrite dom_insert_L. apply subseteq_union_1_L, singleton_subseteq_l, elem_of_dom.
  eauto.
Qed.

Lemma command_return_fixed agent_name r :
  dom (agents (command_return env agent_name r).2) = dom (agents r)
  ∧ recent_messages (room_state (store (command_return env agent_name r).2))
    = recent_messages (room_state (store r))
  ∧ start_time (room_state (store (command_return env agent_name r).2))
    = start_time (room_state (store r)).
Proof.
  unfold command_return.
  destruct (agents r !! agent_name) as [agent|] eqn:Hagent; [|done].
  destruct (return_to_room_history env agent (store r)) as [Hrecent Hstart].
  destruct (return_to_room env agent (store r)) as [[out agent1] st].
  cbn [snd store agents] in *. split_and!; [|done|done].
  rewrite dom_insert_L. apply subseteq_union_1_L, singleton_subseteq_l, elem_of_dom.
  eauto.
Qed.

Lemma run_command_invariant names t0 c r :
  loop_invariant names t0 r → loop_invariant names t0 (run_command env c r).2.
Proof.
  intros (Hok & Hcap & Hdom & Hstart). destruct c as [m|s rc m|n|n]; simpl.
  - destruct (broadcast_frame env m r) as (Ha & Hp & Hal & Hst & Hc).
    split_and!; [by apply (room_consistent_frame r)|by apply Hc|by rewrite Ha|congruence].
  - destruct (send_direct_message_frame env s rc m r) as (Ha & Hp & Hal & Hst & Hc).
    split_and!; [by apply (room_consistent_frame r)|by apply Hc|by rewrite Ha|congruence].
  - destruct (command_leave_fixed n r) as (Hd & Hr & Hs).
    split_and!; [by apply command_leave_consistent|by rewrite Hr|congruence|congruence].
  - destruct (command_return_fixed n r) as (Hd & Hr & Hs).
    split_and!; [by apply command_return_consistent|by rewrite Hr|congruence|congruence].
Qed.

Lemma run_commands_invariant names t0 cs : ∀ r,
  loop_invariant names t0 r → loop_invariant names t0 (run_commands env cs r).2.
Proof.
  induction cs as [|c cs IH]; intros r Hinv; [done|].
  cbn [run_commands].
  pose proof (run_command_invariant names t0 c r Hinv) as Hstep.
  destruct (run_command env c r) as [[out|e] r1]; [by apply IH|done].
Qed.

(** Whatever commands the operator enters, and wherever the loop stops,
    the room stays consistent (every proxy under its own name, the two
    presence sets a partition of the registered names, every flag in
    agreement), the history stays within 50 entries, and neither the set
    of registered names nor the creation time changes. *)
Theorem command_loop_invariant (cs : list Command) (r : Room) :
  room_consistent r →
  length (recent_messages (room_state (store r))) ≤ 50 →
  let r' := (run_commands env cs r).2 in
  room_consistent r'
  ∧ length (recent_messages (room_state (store r'))) ≤ 50
  ∧ dom (agents r') = dom (agents r)
  ∧ start_time (room_state (store r')) = start_time (room_state (store r)).
Proof.
  intros Hok Hcap.
  apply (run_commands_invariant (dom (agents r)) (start_time (room_state (store r)))).
  by split_and!.
Qed.

End Loop.

(** ** The voice queue along the conversation path *)

Section Voice.

Variable env : Environment.

Lemma say_grows speaker text v :
  enabled (say speaker text v) = enabled v
  ∧ voice_queue v `prefix_of` voice_queue (say speaker text v)
  ∧ (enabled v = false → say speaker text v = v).
Proof.
  unfold say. destruct (enabled v) eqn:Hon; simpl.
  - destruct (Py.truthy text && (5 <? Py.len text)); simpl.
    + split_and!; [done| |done]. by apply prefix_app_r.
    + by rewrite Hon.
  - by rewrite Hon.
Qed.

Lemma broadcast_loop_voice message : ∀ present responses r,
  let r' := (broadcast_loop env message present responses r).2 in
  enabled (voice r') = enabled (voice r)
  ∧ voice_queue (voice r) `prefix_of` voice_queue (voice r')
  ∧ (enabled (voice r) = false → voice r' = voice r).
Proof.
  induction present as [|n rest IH]; intros responses r; [done|].
  cbn [broadcast_loop].
  destruct (agents r !! n) as [agent|]; [|done].
  destruct (send_message env _ "Operator" agent (store r)) as [[response|e] st];
    [|done].
  match goal with |- context [broadcast_loop env message rest ?resp ?r1] =>
    destruct (IH resp r1) as (Hon & Hpre & Hoff) end.
  cbn [voice] in Hon, Hpre, Hoff.
  destruct (say_grows n response (voice r)) as (Hon1 & Hpre1 & Hoff1).
  split_and!.
  - congruence.
  - by etrans.
  - intros Hdisabled. rewrite Hoff by congruence. by apply Hoff1.
Qed.

Lemma run_command_voice c r :
  let r' := (run_command env c r).2 in
  enabled (voice r') = enabled (voice r)
  ∧ voice_queue (voice r) `prefix_of` voice_queue (voice r')
  ∧ (enabled (voice r) = false → voice r' = voice r).
Proof.
  destruct c as [m|s rc m|n|n]; cbn [run_command].
  - unfold broadcast.
    destruct (get_present_agents env (room_state (store r))) as [|p rest]; [done|].
    destruct (say_grows "Loudspeaker" m (voice r)) as (Hon1 & Hpre1 & Hoff1).
    destruct (broadcast_loop_voice m (p :: rest) []
                {| store := store r; agents := agents r;
                   voice := say "Loudspeaker" m (voice r) |}) as (Hon & Hpre & Hoff).
    cbn [voice] in Hon, Hpre, Hoff. split_and!.
    + congruence.
    + by etrans.
    + intros Hdisabled. rewrite Hoff by congruence. by apply Hoff1.
  - unfold send_direct_message.
    destruct (agents r !! s) as [sender|]; [|done].
    destruct (agents r !! rc) as [recipient|]; [|done].
    destruct (say_grows s m (voice r)) as (Hon1 & Hpre1 & Hoff1).
    destruct (send_message env _ s recipient (store r)) as [[response|e] st];
      cbn [snd voice]; [|done].
    destruct (say_grows rc response (say s m (voice r))) as (Hon2 & Hpre2 & Hoff2).
    split_and!.
    + congruence.
    + by etrans.
    + intros Hdisabled. rewrite Hoff2 by congruence. by apply Hoff1.
  - unfold command_leave. destruct (agents r !! n) as [agent|]; [|done].
    by destruct (leave_room env agent (store r)) as [[out agent1] st].
  - unfold command_return. destruct (agents r !! n) as [agent|]; [|done].
    by destruct (return_to_room env agent (store r)) as [[out agent1] st].
Qed.

(** The conversation path only ever appends to the voice queue: through
    any run of commands the flag is unchanged and the old queue is a
    prefix of the new one; with voice disabled the synthesizer is not
    touched at all. *)
Theorem voice_queue_only_grows (cs : list Command) (r : Room) :
  let r' := (run_commands env cs r).2 in
  enabled (voice r') = enabled (voice r)
  ∧ voice_queue (voice r) `prefix_of` voice_queue (voice r')
  ∧ (enabled (voice r) = false → voice r' = voice r).
Proof.
  revert r. induction cs as [|c cs IH]; intros r; [done|].
  cbn [run_commands].
  destruct (run_command_voice c r) as (Hon & Hpre & Hoff).
  destruct (run_command env c r) as [[out|e] r1]; cbn [snd] in *; [|done].
  destruct (IH r1) as (Hon' & Hpre' & Hoff').
  split_and!.
  - congruence.
  - by etrans.
  - intros Hdisabled. rewrite Hoff' by congruence. by apply Hoff.
Qed.

End Voice.

Lemma command_loop_invariant_witness :
  let cs := [CmdLeave "Bob"; CmdSend "Alice" "Bob" "hi"; CmdBroadcast "hello";
             CmdReturn "Bob"; CmdLeave "Eve"] in
  let r' := (run_commands Demo.env cs Demo.room).2 in
  room_consistent r'
  ∧ length (recent_messages (room_state (store r'))) ≤ 50
  ∧ dom (agents r') = dom (agents Demo.room)
  ∧ start_time (room_state (store r')) = start_time (room_state (store Demo.room)).
Proof.
  apply (command_loop_invariant Demo.env
           [CmdLeave "Bob"; CmdSend "Alice" "Bob" "hi"; CmdBroadcast "hello";
            CmdReturn "Bob"; CmdLeave "Eve"] Demo.room).
  - apply (bool_decide_unpack _). vm_compute. reflexivity.
  - vm_compute. lia.
Defined.

(** ** Creating the agents *)

Section Creation.

Variable env : Environment.

Lemma create_outcome self st :
  match create env self st with
  | (Returned _, self1, st1) =>
      name self1 = name self ∧ is_present self1 = is_present self
      ∧ is_Some (agent_id self1) ∧ other_agents self1 = other_agents self
      ∧ agents_present (room_state st1) = agents_present (room_state st) ∪ {[name self]}
      ∧ agents_alone (room_state st1) = agents_alone (room_state st)
      ∧ recent_messages (room_state st1) = recent_messages (room_state st)
      ∧ start_time (room_state st1) = start_time (room_state st)
  | (Raised _, self1, st1) => self1 = self ∧ room_state st1 = room_state st
  end.
Proof.
  unfold create. destruct (PERSONAS !! name self) as [persona|]; [|done].
  destruct (list_tools _ _ _) as [found|]; [|done].
  destruct (create_agent _ _ _) as [id|]; [|done].
  simpl. split_and!; done.
Qed.

Lemma create_succeeds n st :
  creates env → n ∈ dom PERSONAS →
  ∃ self1 st1, create env (RoomAgent_init n) st = (Returned tt, self1, st1).
Proof.
  intros Hcreates Hn. apply elem_of_dom in Hn as [persona Hpersona].
  unfold create. cbn [name RoomAgent_init]. rewrite Hpersona.
  match goal with |- context [list_tools (client env) ?log (ListTools ?tool)] =>
    destruct (proj1 (Hcreates log) tool) as [found ->] end.
  match goal with
  | |- context [create_agent (client env) ?log (CreateAgent ?a ?b ?c ?d ?e ?f ?g)] =>
    destruct (proj2 (Hcreates log) a b c d e f g) as [id ->] end.
  eauto.
Qed.

Lemma create_agents_returns names : ∀ r,
  creates env → Forall (λ n, n ∈ dom PERSONAS) names →
  ∃ r', create_agents env names r = (Returned tt, r')
    ∧ dom (agents r') = dom (agents r) ∪ list_to_set names
    ∧ agents_present (room_state (store r'))
      = agents_present (room_state (store r)) ∪ list_to_set names
    ∧ agents_alone (room_state (store r')) = agents_alone (room_state (store r))
    ∧ recent_messages (room_state (store r')) = recent_messages (room_state (store r))
    ∧ start_time (room_state (store r')) = start_time (room_state (store r))
    ∧ voice r' = voice r
    ∧ ∀ k a, agents r' !! k = Some a → agents r !! k = Some a ∨ fresh_proxy k a.
Proof.
  induction names as [|n names IH]; intros r Hcreates Hknown.
  - exists r. simpl. split_and!; try done.
    + by rewrite union_empty_r_L.
    + by rewrite union_empty_r_L.
    + auto.
  - apply Forall_cons in Hknown as [Hn Hknown].
    destruct (create_succeeds n (store r) Hcreates Hn) as (self1 & st1 & Hrun).
    pose proof (create_outcome (RoomAgent_init n) (store r)) as Hout.
    rewrite Hrun in Hout.
    destruct Hout as (Hname & Hflag & Hid & _ & Hp & Ha & Hrec & Hst).
    cbn [create_agents]. rewrite Hrun.
    match goal with |- context [create_agents env names ?r1] =>
      destruct (IH r1 Hcreates Hknown)
        as (r' & -> & Hdom' & Hp' & Ha' & Hrec' & Hst' & Hv' & Hagents') end.
    cbn [store agents voice] in *.
    exists r'. split_and!; try congruence.
    + rewrite Hdom', dom_insert_L. cbn [list_to_set].
      apply set_eq. intros x. set_unfold. intuition.
    + rewrite Hp', Hp. cbn [list_to_set name RoomAgent_init].
      apply set_eq. intros x. set_unfold. intuition.
    + intros k a Hk. destruct (Hagents' k a Hk) as [Hold|Hfresh]; [|by right].
      destruct (decide (k = n)) as [->|Hne].
      * rewrite lookup_insert_eq in Hold. injection Hold as <-.
        right. by split_and!.
      * rewrite lookup_insert_ne in Hold by done. by left.
Qed.

Lemma persona_names_known : Forall (λ n, n ∈ dom PERSONAS) PERSONA_NAMES.
Proof. apply (bool_decide_unpack _). vm_compute. reflexivity. Qed.

Lemma filter_other_keys (k : string) (m : gmap string RoomAgent) :
  filter (λ entry, entry.1 ≠ k) m = delete k m.
Proof.
  apply map_eq. intros i. apply option_eq. intros a.
  rewrite map_lookup_filter_Some, lookup_delete_Some. simpl.
  split; intros [? ?]; split; auto.
Qed.

Lemma aware_of_others_sessions (all m : gmap string RoomAgent) :
  agent_id <$> (aware_of_others all <$> m) = agent_id <$> m.
Proof. rewrite <- map_fmap_compose. by apply map_fmap_ext. Qed.

(** With a client that creates what it is asked to, [initialize_agents]
    on a new room returns with the four personas registered, all present
    and none alone, an empty history, the room consistent, and every
    proxy holding a session of its own and the sessions of exactly the
    other three. *)
Theorem initialize_agents_room (voice_available : bool) :
  creates env →
  ∃ r, initialize_agents env (Room_init env voice_available) = (Returned tt, r)
    ∧ dom (agents r) = list_to_set PERSONA_NAMES
    ∧ agents_present (room_state (store r)) = list_to_set PERSONA_NAMES
    ∧ agents_alone (room_state (store r)) = ∅
    ∧ recent_messages (room_state (store r)) = []
    ∧ room_consistent r
    ∧ map_Forall (λ k a, is_present a = true ∧ is_Some (agent_id a)
                         ∧ other_agents a = delete k (agent_id <$> agents r))
        (agents r).
Proof.
  intros Hcreates.
  destruct (create_agents_returns PERSONA_NAMES (Room_init env voice_available)
              Hcreates persona_names_known)
    as (r1 & Hrun & Hdom & Hp & Ha & Hrec & _ & _ & Hagents).
  cbn [Room_init store agents room_state agents_present agents_alone recent_messages]
    in Hdom, Hp, Ha, Hrec, Hagents.
  rewrite dom_empty_L, union_empty_l_L in Hdom. rewrite union_empty_l_L in Hp.
  assert (∀ k b, agents r1 !! k = Some b → fresh_proxy k b) as Hfresh.
  { intros k b Hk. destruct (Hagents k b Hk) as [Hold|Hnew]; [|done].
    by rewrite lookup_empty in Hold. }
  unfold initialize_agents. rewrite Hrun.
  eexists. split; [reflexivity|]. cbn [store agents].
  split_and!; [by rewrite dom_fmap_L|done|done|done| |].
  - unfold room_consistent. cbn [store agents].
    rewrite Hp, Ha, dom_fmap_L, Hdom. split_and!.
    + by rewrite union_empty_r_L.
    + by rewrite intersection_empty_r_L.
    + intros k a Hk. rewrite lookup_fmap in Hk.
      destruct (agents r1 !! k) as [b|] eqn:Hb; [|done]. injection Hk as <-.
      destruct (Hfresh k b Hb) as (Hname & Hflag & _). cbn [name is_present aware_of_others].
      split; [done|]. split; [|done]. intros _.
      rewrite <- Hdom. apply elem_of_dom. eauto.
  - intros k a Hk. rewrite lookup_fmap in Hk.
    destruct (agents r1 !! k) as [b|] eqn:Hb; [|done]. injection Hk as <-.
    destruct (Hfresh k b Hb) as (Hname & Hflag & Hid).
    cbn [name is_present agent_id other_agents aware_of_others].
    split_and!; [done|done|].
    by rewrite aware_of_others_sessions, filter_other_keys, fmap_delete, Hname.
Qed.

End Creation.

Lemma initialize_agents_room_witness :
  ∃ r, initialize_agents Demo.env (Room_init Demo.env true) = (Returned tt, r)
    ∧ dom (agents r) = list_to_set PERSONA_NAMES
    ∧ agents_present (room_state (store r)) = list_to_set PERSONA_NAMES
    ∧ agents_alone (room_state (store r)) = ∅
    ∧ recent_messages (room_state (store r)) = []
    ∧ room_consistent r
    ∧ map_Forall (λ k a, is_present a = true ∧ is_Some (agent_id a)
                         ∧ other_agents a = delete k (agent_id <$> agents r))
        (agents r).
Proof.
  apply (initialize_agents_room Demo.env true).
  intros log. split; intros; eexists; reflexivity.
Defined.

(** ** Failures and refreshes of a single proxy *)

Section Proxy.

Variable env : Environment.

(** A [create] that raises leaves no trace in the proxy or the room
    state: no session id is stored and the persona is not marked present.
    For a name with no persona text it raises [KeyError] before the clock
    is read or the client is asked anything. *)
Theorem create_failure_leaves_no_trace (self : RoomAgent) (st : Store) :
  (∀ e self1 st1, create env self st = (Raised e, self1, st1) →
     self1 = self ∧ room_state st1 = room_state st)
  ∧ (name self ∉ dom PERSONAS →
     create env self st = (Raised (KeyError (name self)), self, st)).
Proof.
  split.
  - intros e self1 st1 Hrun. pose proof (create_outcome env self st) as Hout.
    by rewrite Hrun in Hout.
  - intros Hunknown. apply not_elem_of_dom in Hunknown.
    unfold create. by rewrite Hunknown.
Qed.

(** [update_time_context] never changes the room state.  Without a
    session it does nothing at all; with one it reads the clock twice and
    sends exactly one update of the block "room_context", and for a proxy
    that is not present the text names no other persona. *)
Theorem update_time_context_effect (self : RoomAgent) (st : Store) :
  let st1 := (update_time_context env self st).2 in
  room_state st1 = room_state st
  ∧ (Py.truthy_opt (agent_id self) = false →
     update_time_context env self st = (Returned tt, st))
  ∧ (∀ id, agent_id self = Some id → id ≠ "" →
     clock_reads st1 = S (S (clock_reads st))
     ∧ ∃ value, requests st1
                = requests st ++ [UpdateAgentMemory id "room_context" value]
         ∧ (is_present self = false →
            value = "Time: " +:+ strftime_HMS (wall_clock env (clock_reads st))
                    +:+ ". You are alone in contemplation. Room has been active for "
                    +:+ time_elapsed (wall_clock env (S (clock_reads st))) (room_state st)
                    +:+ ".")).
Proof.
  split_and!.
  - apply update_time_context_room_state.
  - unfold update_time_context. destruct (agent_id self) as [id|]; [|done].
    simpl. by intros ->.
  - intros id Hid Hne. unfold update_time_context. rewrite Hid.
    destruct id as [|c id]; [done|]. cbn [Py.truthy].
    destruct (update_agent_memory _ _ _); cbn [snd sent tick clock_reads requests].
    + split; [done|]. eexists. split; [reflexivity|].
      intros ->. cbn [negb]. by destruct (filter _ _).
    + split; [done|]. eexists. split; [reflexivity|].
      intros ->. cbn [negb]. by destruct (filter _ _).
Qed.

(** For a proxy with a session, [send_message] sends one user-role
    request and answers from the first assistant turn of the response:
    when that turn carries a tool call, the reply is its text if it has
    any and the first call's arguments otherwise; turns after it are
    ignored and the room state is untouched. *)
Theorem send_message_first_assistant_turn (content sender : string)
    (self : RoomAgent) (st : Store) (id : string)
    (before after : list LettaMessage) (msg : LettaMessage)
    (call : ToolCall) (calls : list ToolCall) :
  agent_id self = Some id → id ≠ "" →
  client_send_message (client env) (requests st) (SendMessage id content "user")
    = Some (before ++ msg :: after) →
  Forall (λ m, role m ≠ "assistant") before →
  role msg = "assistant" →
  tool_calls msg = Some (call :: calls) →
  send_message env content sender self st
  = (Returned (Py.or_default (text msg) (function_arguments call)),
     {| room_state := room_state st;
        requests := requests st ++ [SendMessage id content "user"];
        clock_reads := clock_reads st |}).
Proof.
  intros Hid Hne Hanswer Hbefore Hrole Hcalls.
  rewrite (send_message_live env _ _ _ _ id _ Hid Hne Hanswer).
  rewrite (extract_reply_first_assistant before msg after Hbefore Hrole).
  by rewrite (assistant_reply_tool_call msg call calls Hcalls).
Qed.

End Proxy.

Example create_refused :
  let '(out, self1, st1) :=
    create Demo.refusing_env (RoomAgent_init "Alice") Demo.store0 in
  self1 = RoomAgent_init "Alice" ∧ room_state st1 = room_state Demo.store0
  ∧ length (requests st1) = 2.
Proof. vm_compute. done. Qed.

Lemma create_failure_leaves_no_trace_witness :
  create Demo.env (RoomAgent_init "Eve") Demo.store0
  = (Raised (KeyError "Eve"), RoomAgent_init "Eve", Demo.store0).
Proof.
  apply (proj2 (create_failure_leaves_no_trace Demo.env (RoomAgent_init "Eve")
                  Demo.store0)).
  vm_compute. intros H. discriminate H.
Defined.

Lemma update_time_context_effect_witness :
  ∃ value,
    requests (update_time_context Demo.env (with_is_present false Demo.bob)
                (store Demo.room_without_bob)).2
    = requests (store Demo.room_without_bob)
        ++ [UpdateAgentMemory "id-agent_bob" "room_context" value]
    ∧ value = "Time: 00:00:07. You are alone in contemplation. Room has been active for 00:00:08.".
Proof.
  destruct (proj2 (proj2 (update_time_context_effect Demo.env
                            (with_is_present false Demo.bob)
                            (store Demo.room_without_bob)))
              "id-agent_bob") as (_ & value & Hreq & Hvalue).
  - vm_compute. reflexivity.
  - intros H. discriminate H.
  - exists value. split; [exact Hreq|].
    rewrite Hvalue by reflexivity. vm_compute. reflexivity.
Defined.

Lemma send_message_first_assistant_turn_witness :
  send_message Demo.env "Alice says: hi" "Alice" Demo.bob (store Demo.room)
  = (Returned "Heard by id-agent_bob",
     {| room_state := room_state (store Demo.room);
        requests := requests (store Demo.room)
                      ++ [SendMessage "id-agent_bob" "Alice says: hi" "user"];
        clock_reads := clock_reads (store Demo.room) |}).
Proof.
  apply (send_message_first_assistant_turn Demo.env "Alice says: hi" "Alice" Demo.bob
           (store Demo.room) "id-agent_bob"
           [ {| role := "user"; text := Some "Alice says: hi"; tool_calls := None |} ]
           []
           {| role := "assistant"; text := None;
              tool_calls := Some [ {| function_name := "send_message";
                                      function_arguments := "Heard by id-agent_bob" |} ] |}
           {| function_name := "send_message";
              function_arguments := "Heard by id-agent_bob" |} []).
  - vm_compute. reflexivity.
  - intros H. discriminate H.
  - vm_compute. reflexivity.
  - repeat constructor. intros H. discriminate H.
  - reflexivity.
  - reflexivity.
Defined.

(** ** Elapsed time, presence round trips and failed deliveries *)

Lemma time_elapsed_first_day_witness :
  time_elapsed (23 * 3600 * us_per_second + 59 * us_per_second + 999999)%Z
    (RoomState_init 0%Z)
  = hours_minutes_seconds
      ((23 * 3600 * us_per_second + 59 * us_per_second + 999999
        - start_time (RoomState_init 0%Z)) / us_per_second).
Proof.
  apply (time_elapsed_first_day
           (23 * 3600 * us_per_second + 59 * us_per_second + 999999)%Z
           (RoomState_init 0%Z)).
  unfold us_per_day, us_per_second. simpl. lia.
Defined.

(** The rendering of [time_elapsed] repeats every 24 hours: any whole
    number of days added to (or taken from) the elapsed time leaves it
    unchanged. *)
Theorem time_elapsed_day_periodic (t : datetime) (k : Z) (rs : RoomState) :
  time_elapsed (t + k * us_per_day)%Z rs = time_elapsed t rs.
Proof.
  rewrite !time_elapsed_mod_day. f_equal.
  replace (t + k * us_per_day - start_time rs)%Z
    with (t - start_time rs + (k * 86400) * us_per_second)%Z
    by (unfold us_per_day; lia).
  rewrite Z.div_add by (unfold us_per_second; lia).
  rewrite Z.mul_comm. rewrite Z.add_comm.
  rewrite Z.add_comm, Z.mul_comm. apply Z.mod_add. lia.
Qed.

Section RoundTrip.

Variable env : Environment.

(** For a proxy that is present, leaving and then returning brings the
    proxy and the room state back to what they were; only the client and
    the clock have been used in between. *)
Theorem leave_then_return_restores (self : RoomAgent) (st : Store) :
  is_present self = true →
  name self ∈ agents_present (room_state st) →
  name self ∉ agents_alone (room_state st) →
  let '(_, self1, st1) := leave_room env self st in
  let '(_, self2, st2) := return_to_room env self1 st1 in
  self2 = self ∧ room_state st2 = room_state st.
Proof.
  intros Hflag Hin Hout.
  destruct (leave_room env self st) as [[out1 self1] st1] eqn:Hleave.
  destruct (leave_room_effect env _ _ _ _ _ Hflag Hleave) as (-> & Hp1 & Ha1).
  destruct (leave_room_history env self st) as [Hr1 Hs1]. rewrite Hleave in Hr1, Hs1.
  destruct (return_to_room env (with_is_present false self) st1)
    as [[out2 self2] st2] eqn:Hreturn.
  destruct (return_to_room_effect env (with_is_present false self) st1 _ _ _
              (eq_refl false) Hreturn) as (-> & Hp2 & Ha2).
  destruct (return_to_room_history env (with_is_present false self) st1) as [Hr2 Hs2].
  rewrite Hreturn in Hr2, Hs2. cbn [snd name with_is_present] in *.
  split.
  - destruct self. simpl in Hflag. by subst.
  - destruct (room_state st2) as [p2 a2 m2 t2], (room_state st) as [p a m t0],
      (room_state st1) as [p1 a1 m1 t1].
    cbn [agents_present agents_alone recent_messages start_time] in *. subst.
    f_equal.
    + apply set_eq. intros x. set_unfold.
      destruct (decide (x = name self)) as [->|]; intuition.
    + apply set_eq. intros x. set_unfold.
      destruct (decide (x = name self)) as [->|]; intuition.
Qed.

(** A direct message whose delivery raises records nothing: both names
    are registered, the exception is the client's failure on the one
    request made, which went to the session of the recipient's proxy, the
    room state and the proxies are unchanged, and the voice queue has
    received the sender's utterance only. *)
Theorem send_direct_message_failure (sender_name recipient_name message : string)
    (r r' : Room) (e : Exn) :
  send_direct_message env sender_name recipient_name message r = (Raised e, r') →
  room_state (store r') = room_state (store r)
  ∧ clock_reads (store r') = clock_reads (store r)
  ∧ agents r' = agents r
  ∧ voice r' = say sender_name message (voice r)
  ∧ sender_name ∈ dom (agents r)
  ∧ ∃ recipient id,
      agents r !! recipient_name = Some recipient
      ∧ agent_id recipient = Some id ∧ id ≠ ""
      ∧ let req := SendMessage id (sender_name +:+ " says: " +:+ message) "user" in
        e = ClientError req
        ∧ client_send_message (client env) (requests (store r)) req = None
        ∧ requests (store r') = requests (store r) ++ [req].
Proof.
  unfold send_direct_message.
  destruct (agents r !! sender_name) as [sender|] eqn:Hsender; [|done].
  destruct (agents r !! recipient_name) as [recipient|] eqn:Hrecipient; [|done].
  unfold send_message.
  destruct (agent_id recipient) as [id|] eqn:Hid; [|done].
  destruct id as [|c id]; [done|]. cbn [Py.truthy_opt Py.truthy negb default].
  destruct (client_send_message _ _ _) eqn:Hanswer; [done|].
  intros [= <- <-]. cbn [store agents voice sent room_state requests clock_reads].
  split_and!; [done|done|done|done|by apply elem_of_dom; eauto|].
  exists recipient, (String c id). by split_and!.
Qed.

End RoundTrip.

Lemma leave_then_return_restores_witness :
  let '(_, self1, st1) := leave_room Demo.env Demo.bob (store Demo.room) in
  let '(_, self2, st2) := return_to_room Demo.env self1 st1 in
  self2 = Demo.bob ∧ room_state st2 = room_state (store Demo.room).
Proof.
  apply (leave_then_return_restores Demo.env Demo.bob (store Demo.room)).
  - vm_compute. reflexivity.
  - vm_compute. reflexivity.
  - vm_compute. intros H. discriminate H.
Defined.

Lemma send_direct_message_failure_witness :
  ∃ e r',
    send_direct_message Demo.refusing_env "Alice" "Bob" "hello Bob" Demo.room
    = (Raised e, r')
    ∧ room_state (store r') = room_state (store Demo.room)
    ∧ agents r' = agents Demo.room
    ∧ voice_queue (voice r') = [("Alice", "hello Bob")]
    ∧ e = ClientError (SendMessage "id-agent_bob" "Alice says: hello Bob" "user").
Proof.
  eexists _, _.
  match goal with |- ?run ∧ _ =>
    assert run as Hrun by (vm_compute; reflexivity) end.
  split; [exact Hrun|].
  destruct (send_direct_message_failure Demo.refusing_env _ _ _ _ _ _ Hrun)
    as (Hrs & _ & Hagents & Hvoice & _ & recipient & id & Hrecipient & Hid & _ & He & _).
  split_and!; [exact Hrs|exact Hagents| |].
  - rewrite Hvoice. vm_compute. reflexivity.
  - reflexivity.
Defined.

(** ** A present persona without a proxy *)

Section MissingProxy.

Variable env : Environment.

Lemma broadcast_loop_missing message : ∀ present responses r n,
  n ∈ present → agents r !! n = None →
  ∃ e, (broadcast_loop env message present responses r).1 = Raised e.
Proof.
  induction present as [|p rest IH]; intros responses r n Hin Hnone.
  - by apply elem_of_nil in Hin.
  - cbn [broadcast_loop].
    destruct (agents r !! p) as [agent|] eqn:Hp; [|by eexists].
    destruct (send_message env _ "Operator" agent (store r)) as [[response|e] st];
      [|by eexists].
    apply elem_of_cons in Hin as [->|Hin]; [congruence|].
    by apply (IH _ _ n).
Qed.

(** If some persona in [agents_present] has no proxy in [self.agents],
    [broadcast] does not return a result: it raises (the [KeyError] of
    the lookup, or an earlier client error). *)
Theorem broadcast_missing_proxy (message : string) (r : Room) (n : string) :
  (∀ X, set_iter env X ≡ₚ elements X) →
  n ∈ agents_present (room_state (store r)) →
  agents r !! n = None →
  ∃ e, (broadcast env message r).1 = Raised e.
Proof.
  intros Horder Hin Hnone.
  assert (n ∈ get_present_agents env (room_state (store r))) as Hlist.
  { unfold get_present_agents. rewrite (Horder _). by apply elem_of_elements. }
  unfold broadcast.
  destruct (get_present_agents env (room_state (store r))) as [|p rest] eqn:Hpresent.
  - by apply elem_of_nil in Hlist.
  - by apply (broadcast_loop_missing message (p :: rest) [] _ n).
Qed.

End MissingProxy.

(** ** Speech text *)

Lemma chars_remove_char (c : ascii) (s : string) :
  chars (remove_char c s) = filter (λ a, a ≠ c) (chars s).
Proof.
  induction s as [|a s IH]; [done|]. simpl.
  destruct (Ascii.eqb_spec a c) as [->|Hne].
  - rewrite filter_cons_False by (intros H; by apply H). done.
  - rewrite filter_cons_True by done. simpl. by rewrite IH.
Qed.

(** The text handed to the synthesizer is the utterance with every
    asterisk, underscore and hash removed and every other character kept,
    in order. *)
Theorem clean_text_chars (text : string) :
  chars (clean_text text)
  = filter (λ a, a ≠ "*"%char ∧ a ≠ "_"%char ∧ a ≠ "#"%char) (chars text).
Proof.
  unfold clean_text. rewrite !chars_remove_char.
  induction (chars text) as [|a l IH]; [done|].
  destruct (decide (a = "*"%char)) as [->|H1].
  { rewrite (filter_cons_False _ "*"%char) by (intros H; by apply H).
    rewrite IH. by rewrite filter_cons_False by (intros (H & _); by apply H). }
  rewrite (filter_cons_True (λ a, a ≠ "*"%char)) by done.
  destruct (decide (a = "_"%char)) as [->|H2].
  { rewrite (filter_cons_False _ "_"%char) by (intros H; by apply H).
    rewrite IH. by rewrite filter_cons_False by (intros (_ & H & _); by apply H). }
  rewrite (filter_cons_True (λ a, a ≠ "_"%char)) by done.
  destruct (decide (a = "#"%char)) as [->|H3].
  { rewrite (filter_cons_False _ "#"%char) by (intros H; by apply H).
    rewrite IH. by rewrite filter_cons_False by (intros (_ & _ & H); by apply H). }
  rewrite (filter_cons_True (λ a, a ≠ "#"%char)) by done.
  rewrite IH. by rewrite filter_cons_True by done.
Qed.

Lemma broadcast_missing_proxy_witness :
  ∃ e, (broadcast Demo.env "hello"
          {| store := store Demo.room; agents := delete "Bob" (agents Demo.room);
             voice := voice Demo.room |}).1 = Raised e.
Proof.
  apply (broadcast_missing_proxy Demo.env "hello" _ "Bob").
  - done.
  - vm_compute. reflexivity.
  - vm_compute. reflexivity.
Defined.
